(** * ai-blip-tagger: a shallow embedding of the tagging pipeline

    The development follows the Python sources:
    - [src/models/captioner.py]        ([Captioner])
    - [src/processors/image_processor.py], [src/processors/video_processor.py]
      ([Processors])
    - [src/tagger.py]                  ([Tagger])

    Python exceptions are values of [result]; code that touches the output
    CSV runs in a state-and-exception monad over [World].

    Modelling choices:
    - a file name is a byte string, and [str.lower] acts on its ASCII letters;
    - the output CSV is the list of records [csv.reader] would meet, so
      [csv.writer] and [csv.reader] are taken to be inverse to each other;
    - writing to the output CSV succeeds, and a row is appended as a whole;
    - the input tree is a finite map from paths to what they hold, and
      [rglob] lists its entries below a directory in an arbitrary order;
    - the pretrained model, the image and video decoders, [stat] and the
      clock are parameters ([Tagger.Env]). *)

From Stdlib Require Import ZArith Lia Ascii String.
From stdpp Require Import base decidable option list sorting gmap strings pretty.

Local Open Scope Z_scope.

(** ** Python exceptions *)

Inductive exn :=
  | ValueError (msg : string)
  | ZeroDivisionError
  | OSError (msg : string)
  | RuntimeError (msg : string).

Inductive result (A : Type) :=
  | Ok (a : A)
  | Raise (e : exn).
Arguments Ok {A} a.
Arguments Raise {A} e.

Definition rbind {A B} (r : result A) (k : A → result B) : result B :=
  match r with
  | Ok a => k a
  | Raise e => Raise e
  end.

(** [try: body except Exception: handler] *)
Definition try_except {A} (body : result A) (handler : exn → result A) : result A :=
  match body with
  | Ok a => Ok a
  | Raise e => handler e
  end.

Notation "'try!' x := c 'in' k" := (rbind c (fun x => k))
  (at level 10, x name, c at level 100, k at level 200).

(** ** Strings and paths *)

Module PyStr.

(** [str.lower] on the ASCII letters; other bytes are left as they are. *)
Definition lower_ascii (c : ascii) : ascii :=
  let n := nat_of_ascii c in
  if ((65 <=? n) && (n <=? 90))%nat then ascii_of_nat (n + 32) else c.

Fixpoint lower (s : string) : string :=
  match s with
  | EmptyString => EmptyString
  | String c s' => String (lower_ascii c) (lower s')
  end.

(** [s.rfind(c)]: the highest index holding [c], [None] for Python's -1. *)
Fixpoint rfind (c : ascii) (s : string) : option nat :=
  match s with
  | EmptyString => None
  | String a s' =>
      match rfind c s' with
      | Some i => Some (S i)
      | None => if Ascii.eqb a c then Some 0%nat else None
      end
  end.

(** [s[i:]] *)
Fixpoint drop (i : nat) (s : string) : string :=
  match i, s with
  | O, _ => s
  | S i', String _ s' => drop i' s'
  | S _, EmptyString => EmptyString
  end.

(** The characters [str.strip] removes (ASCII range). *)
Definition is_space (c : ascii) : bool :=
  let n := nat_of_ascii c in
  (((9 <=? n) && (n <=? 13)) || ((28 <=? n) && (n <=? 32)))%nat.

Fixpoint lstrip (s : string) : string :=
  match s with
  | EmptyString => EmptyString
  | String c s' => if is_space c then lstrip s' else s
  end.

Fixpoint rstrip (s : string) : string :=
  match s with
  | EmptyString => EmptyString
  | String c s' =>
      match rstrip s' with
      | EmptyString => if is_space c then EmptyString else String c EmptyString
      | t => String c t
      end
  end.

Definition strip (s : string) : string := rstrip (lstrip s).

(** [sep.join(parts)] *)
Fixpoint join (sep : string) (parts : list string) : string :=
  match parts with
  | [] => EmptyString
  | [p] => p
  | p :: rest => p +:+ sep +:+ join sep rest
  end.

End PyStr.

(** A [pathlib.Path] is its sequence of parts. *)
Abbreviation Path := (list string).

Module PyPath.

(** [path.name]: the final component. *)
Definition name (p : Path) : string := List.last p EmptyString.

(** [path.suffix]:
    [i = name.rfind('.'); name[i:] if 0 < i < len(name) - 1 else ''] *)
Definition suffix (p : Path) : string :=
  let nm := name p in
  match PyStr.rfind "."%char nm with
  | Some i =>
      if ((0 <? i) && (S i <? String.length nm))%nat then PyStr.drop i nm
      else EmptyString
  | None => EmptyString
  end.

(** Paths compare as their lists of parts, strings by code point. *)
Fixpoint leb (p q : Path) : bool :=
  match p, q with
  | [], _ => true
  | _ :: _, [] => false
  | a :: p', b :: q' =>
      match String.compare a b with
      | Lt => true
      | Gt => false
      | Eq => leb p' q'
      end
  end.

Definition le (p q : Path) : Prop := leb p q = true.

#[global] Instance le_dec (p q : Path) : Decision (le p q) :=
  decide (leb p q = true).

End PyPath.

(** ** src/models/captioner.py *)

Module Captioner.
Section Captioner.

(** A decoded [PIL.Image], the tensors handed to BLIP and its output ids. *)
Context {Image Inputs Tokens : Type}.

(** The pretrained model and its processor; each call may raise. *)
Record Blip := {
  processor_call : Image → result Inputs;
  generate : Inputs → result Tokens;
  decode : Tokens → result string;
}.

Definition FAILED : string := "Caption generation failed".

(** [ImageCaptioner.caption] *)
Definition caption (blip : Blip) (image : Image) : result string :=
  try_except
    (try! inputs := processor_call blip image in
     try! out := generate blip inputs in
     try! caption := decode blip out in
     Ok (PyStr.strip caption))
    (fun _ => Ok FAILED).

End Captioner.
Arguments Blip : clear implicits.
End Captioner.

(** ** src/processors/video_processor.py and image_processor.py *)

Module Processors.
Section Processors.

Context {Image Inputs Tokens : Type}.
Abbreviation Blip := (Captioner.Blip Image Inputs Tokens).

(** [cv2.VideoCapture]: whether it opened, its CAP_PROP_FRAME_COUNT and
    what [set(CAP_PROP_POS_FRAMES, i); read()] gives ([None] when [ret]
    is false), already converted to an RGB image. *)
Record VideoCapture := {
  isOpened : bool;
  frame_count : Z;
  read_at : Z → option Image;
}.

(** [list(range(n))] *)
Definition range (n : Z) : list Z := List.map Z.of_nat (List.seq 0 (Z.to_nat n)).

(** Python's [a // b] *)
Definition floordiv (a b : Z) : result Z :=
  if b =? 0 then Raise ZeroDivisionError else Ok (a / b).

(** The [frame_indices] of [_extract_frames] once [total_frames] is known
    to be non-zero. *)
Definition frame_indices (max_frames total_frames : Z) : result (list Z) :=
  if total_frames <=? max_frames then Ok (range total_frames)
  else
    try! step := floordiv total_frames max_frames in
    Ok (List.map (fun i => i * step) (range max_frames)).

(** [VideoProcessor._extract_frames] *)
Definition _extract_frames (max_frames : Z) (video : VideoCapture)
  : result (list Image) :=
  if negb (isOpened video) then Raise (ValueError "Could not open video file")
  else
    let total_frames := frame_count video in
    if total_frames =? 0 then Ok []
    else
      try! indices := frame_indices max_frames total_frames in
      Ok (omap (read_at video) indices).

Definition NO_FRAMES : string := "No frames extracted from video".

(** The loop of [VideoProcessor.process] that captions every frame. *)
Fixpoint caption_all (blip : Blip) (frames : list Image) : result (list string) :=
  match frames with
  | [] => Ok []
  | frame :: rest =>
      try! caption := Captioner.caption blip frame in
      try! captions := caption_all blip rest in
      Ok (caption :: captions)
  end.

(** [VideoProcessor.process]; the [except] clause logs and re-raises. *)
Definition video_process (blip : Blip) (max_frames : Z) (video : VideoCapture)
  : result string :=
  try_except
    (try! frames := _extract_frames max_frames video in
     match frames with
     | [] => Ok NO_FRAMES
     | _ =>
         try! captions := caption_all blip frames in
         Ok (PyStr.join " | " captions)
     end)
    (fun e => Raise e).

(** What [Image.open] gives: the mode, the size and the RGB conversion. *)
Record ImageFile := {
  mode : string;
  width : Z;
  height : Z;
  pixels : Image;
  convert_rgb : result Image;
}.

(** [ImageProcessor.process]; the [except] clause logs and re-raises. *)
Definition image_process (blip : Blip) (opened : result ImageFile) : result string :=
  try_except
    (try! img := opened in
     try! rgb := (if String.eqb (mode img) "RGB" then Ok (pixels img)
                  else convert_rgb img) in
     Captioner.caption blip rgb)
    (fun e => Raise e).

End Processors.
Arguments VideoCapture : clear implicits.
Arguments ImageFile : clear implicits.
End Processors.

(** ** src/tagger.py: the world the orchestrator runs in *)

(** What the input tree holds at a path. *)
Inductive kind := RegularFile | Directory.

(** One record of the output CSV as [csv.reader] meets it: a row of fields,
    or a place where reading raises (undecodable bytes, a malformed quote). *)
Inductive item :=
  | Row (fields : list string)
  | Corrupt.

(** The I/O the run performs, in order: a ghost trace kept next to the
    file, which the code itself does not read. *)
Inductive event :=
  | Captioning (file : Path)
  | Wrote (rows : list (list string))
  | Appended (rows : list (list string)).

(** The output file ([None]: it does not exist) and the I/O done so far. *)
Record World := {
  ledger : option (list item);
  log : list event;
}.

(** State and exceptions; a raised exception keeps the state reached. *)
Definition M (A : Type) : Type := World → result A * World.

Definition ret {A} (a : A) : M A := fun w => (Ok a, w).

Definition bind {A B} (m : M A) (k : A → M B) : M B :=
  fun w =>
    match m w with
    | (Ok a, w') => k a w'
    | (Raise e, w') => (Raise e, w')
    end.

Definition lift {A} (r : result A) : M A := fun w => (r, w).

Definition try_exceptM {A} (body : M A) (handler : exn → M A) : M A :=
  fun w =>
    match body w with
    | (Ok a, w') => (Ok a, w')
    | (Raise e, w') => handler e w'
    end.

Definition emit (e : event) : M unit :=
  fun w => (Ok tt, {| ledger := ledger w; log := log w ++ [e] |}).

Notation "'do!' x := c 'in' k" := (bind c (fun x => k))
  (at level 10, x name, c at level 100, k at level 200).
Notation "c ';;' k" := (bind c (fun _ => k))
  (at level 100, k at level 200, right associativity).

(** A value in a result tuple, before [csv.writer] turns it into text. *)
Inductive cell :=
  | Str (s : string)
  | Int (n : Z)
  | RoundKb (st_size : Z).   (* round(st_size / 1024, 1) *)

Module Tagger.
Section Tagger.

Context {Image Inputs Tokens : Type}.
Abbreviation Blip := (Captioner.Blip Image Inputs Tokens).
Abbreviation VideoCapture := (Processors.VideoCapture Image).
Abbreviation ImageFile := (Processors.ImageFile Image).

(** Everything outside the orchestrator. *)
Record Env := {
  blip : Blip;
  tree : gmap Path kind;                  (* the input tree *)
  image_open : Path → result ImageFile;   (* Image.open *)
  video_capture : Path → VideoCapture;    (* cv2.VideoCapture *)
  st_size : Path → result Z;              (* path.stat().st_size *)
  now : Path → string;                    (* datetime.now().strftime(..) *)
  str_float : Z → string;                 (* str(round(n / 1024, 1)) *)
}.

Definition SUPPORTED_IMAGES : gset string :=
  {[ ".jpg"; ".jpeg"; ".png"; ".bmp"; ".tiff"; ".webp" ]}.
Definition SUPPORTED_VIDEOS : gset string :=
  {[ ".mp4"; ".avi"; ".mov"; ".mkv"; ".gif"; ".webm" ]}.

(** The constructor arguments of [AITagger]. *)
Record AITagger := {
  verbose : bool;
  batch_mode : bool;
  skip_existing : bool;
  continuous_save : bool;
  format_type : string;
}.

(** [VideoProcessor(self.captioner)] keeps the default [max_frames]. *)
Definition MAX_FRAMES : Z := 5.

Variable env : Env.
Variable self : AITagger.

(** *** Discovery *)

Definition is_file (path : Path) : bool :=
  match tree env !! path with
  | Some RegularFile => true
  | _ => false
  end.

(** [path.rglob('*')]: every entry strictly below [path], in no
    particular order. *)
Definition rglob (path : Path) : list Path :=
  match tree env !! path with
  | Some Directory =>
      List.filter (fun p => bool_decide (path `prefix_of` p) && negb (bool_decide (p = path)))
                  (map_to_list (tree env)).*1
  | _ => []
  end.

Definition _is_supported (file_path : Path) : bool :=
  let suffix := PyStr.lower (PyPath.suffix file_path) in
  bool_decide (suffix ∈ SUPPORTED_IMAGES) || bool_decide (suffix ∈ SUPPORTED_VIDEOS).

Definition _get_files (path : Path) : list Path :=
  if is_file path then
    if _is_supported path then [path] else []
  else
    merge_sort PyPath.le
      (List.filter (fun file_path => is_file file_path && _is_supported file_path)
                   (rglob path)).

(** *** Per-file work *)

Definition _process_single_file (file_path : Path) : result string :=
  let suffix := PyStr.lower (PyPath.suffix file_path) in
  if bool_decide (suffix ∈ SUPPORTED_IMAGES) then
    Processors.image_process (blip env) (image_open env file_path)
  else if bool_decide (suffix ∈ SUPPORTED_VIDEOS) then
    Processors.video_process (blip env) MAX_FRAMES (video_capture env file_path)
  else Raise (ValueError "Unsupported file type").

Record FileInfo := {
  size_kb : cell;
  extension : string;
  date_processed : string;
  dimensions : string;
}.

Definition _get_file_info (file_path : Path) : FileInfo :=
  match st_size env file_path with
  | Ok size =>
      {| size_kb := RoundKb size;
         extension := PyStr.lower (PyPath.suffix file_path);
         date_processed := now env file_path;
         dimensions :=
           if bool_decide (PyStr.lower (PyPath.suffix file_path) ∈ SUPPORTED_IMAGES) then
             match image_open env file_path with
             | Ok img => pretty (Processors.width img) +:+ "x" +:+ pretty (Processors.height img)
             | Raise _ => "unknown"
             end
           else "N/A" |}
  | Raise _ =>
      {| size_kb := Int 0;
         extension := PyStr.lower (PyPath.suffix file_path);
         date_processed := now env file_path;
         dimensions := "unknown" |}
  end.

(** *** The CSV file *)

(** What [csv.writer] writes for one value. *)
Definition str (c : cell) : string :=
  match c with
  | Str s => s
  | Int n => pretty n
  | RoundKb n => str_float env n
  end.

Definition writerow (result : list cell) : list string := List.map str result.

(** The header [_write_csv] and [_ensure_csv_headers] write. *)
Definition header : list string :=
  if String.eqb (format_type self) "detailed" then
    ["filename"; "caption"; "size_kb"; "dimensions"; "file_type"; "date_processed"]
  else ["filename"; "caption"].

(** [open(output_file, 'w')] and the rows written to it. *)
Definition open_w (rows : list (list string)) : M unit :=
  fun w => (Ok tt, {| ledger := Some (List.map Row rows); log := log w ++ [Wrote rows] |}).

(** [open(output_file, 'a')] and the rows written to it. *)
Definition open_a (rows : list (list string)) : M unit :=
  fun w => (Ok tt, {| ledger := Some (default [] (ledger w) ++ List.map Row rows);
                      log := log w ++ [Appended rows] |}).

(** [os.path.exists(output_file)] *)
Definition exists_ : M bool :=
  fun w => (Ok (bool_decide (is_Some (ledger w))), w).

Definition _append_csv (results : list (list cell)) : M unit :=
  match results with
  | [] => ret tt
  | _ => open_a (List.map writerow results)
  end.

Definition _write_csv (results : list (list cell)) : M unit :=
  open_w (header :: List.map writerow results).

Definition _ensure_csv_headers : M unit :=
  do! present := exists_ in
  if negb present then open_w [header] else ret tt.

Definition _save_single_result (result : list cell) : M unit :=
  open_a [writerow result].

(** The body of the [with] block of [_get_existing_files] after the header
    has been skipped: the set as it stands when the loop ends or raises. *)
Fixpoint read_rows (reader : list item) (existing_files : gset string)
  : gset string * result unit :=
  match reader with
  | [] => (existing_files, Ok tt)
  | Corrupt :: _ => (existing_files, Raise (ValueError "could not read"))
  | Row row :: rest =>
      read_rows rest
        (match row with
         | first :: _ => {[ first ]} ∪ existing_files
         | [] => existing_files
         end)
  end.

(** [next(reader, None)] followed by the loop. *)
Definition read_ledger (reader : list item) : gset string * result unit :=
  match reader with
  | [] => (∅, Ok tt)
  | Corrupt :: _ => (∅, Raise (ValueError "could not read"))
  | Row _ :: rest => read_rows rest ∅
  end.

Definition _get_existing_files : M (gset string) :=
  fun w =>
    match ledger w with
    | None => (Ok ∅, w)
    | Some reader =>
        let '(existing_files, outcome) := read_ledger reader in
        (try_except (try! _ := outcome in Ok existing_files)
                    (fun _ => Ok existing_files), w)
    end.

(** *** The run *)

Definition detailed : bool := String.eqb (format_type self) "detailed".

(** The tuple built in the [try] block once the caption is there. *)
Definition success_result (file_path : Path) (caption : string) : list cell :=
  if detailed then
    let file_info := _get_file_info file_path in
    [Str (PyPath.name file_path); Str caption; size_kb file_info;
     Str (dimensions file_info); Str (extension file_info);
     Str (date_processed file_info)]
  else [Str (PyPath.name file_path); Str caption].

(** The tuple built in the [except] block. *)
Definition error_result (file_path : Path) : list cell :=
  if detailed then
    [Str (PyPath.name file_path); Str "ERROR"; Int 0; Str "unknown";
     Str (PyStr.lower (PyPath.suffix file_path)); Str (now env file_path)]
  else [Str (PyPath.name file_path); Str "ERROR"].

(** Save the tuple at once or queue it, as both blocks do. *)
Definition record (result : list cell) (results : list (list cell))
  : M (list (list cell)) :=
  if continuous_save self then
    _save_single_result result ;; ret results
  else ret (results ++ [result]).

(** One iteration of the [for] loop of [process]. *)
Definition process_file (file_path : Path) (results : list (list cell))
  : M (list (list cell)) :=
  try_exceptM
    (emit (Captioning file_path) ;;
     do! caption := lift (_process_single_file file_path) in
     record (success_result file_path caption) results)
    (fun _ => record (error_result file_path) results).

(** The [for] loop of [process]. *)
Fixpoint for_files (files_to_process : list Path) (results : list (list cell))
  : M (list (list cell)) :=
  match files_to_process with
  | [] => ret results
  | file_path :: rest =>
      do! results := process_file file_path results in
      for_files rest results
  end.

(** [self.skip_existing and existing_files] *)
Definition resuming (existing_files : gset string) : bool :=
  skip_existing self && negb (bool_decide (existing_files = ∅)).

(** The filter of line 68. *)
Definition not_existing (existing_files : gset string) (files : list Path) : list Path :=
  List.filter (fun f => bool_decide (PyPath.name f ∉ existing_files)) files.

(** [process] up to [results = []]: the resume set and the files that are
    left, or [None] where [process] returns early. *)
Definition prepare (input_path : Path) : M (option (gset string * list Path)) :=
  (if continuous_save self then _ensure_csv_headers else ret tt) ;;
  do! existing_files :=
    (if skip_existing self then _get_existing_files else ret ∅) in
  let files_to_process := _get_files input_path in
  match files_to_process with
  | [] => ret None
  | _ =>
      if resuming existing_files then
        match not_existing existing_files files_to_process with
        | [] => ret None
        | files_to_process => ret (Some (existing_files, files_to_process))
        end
      else ret (Some (existing_files, files_to_process))
  end.

(** [process] after the loop. *)
Definition save_results (existing_files : gset string) (results : list (list cell))
  : M unit :=
  if negb (continuous_save self) then
    if resuming existing_files then _append_csv results
    else _write_csv results
  else ret tt.

(** [AITagger.process] *)
Definition process (input_path : Path) : M unit :=
  do! plan := prepare input_path in
  match plan with
  | None => ret tt
  | Some (existing_files, files_to_process) =>
      do! results := for_files files_to_process [] in
      save_results existing_files results
  end.

(** [process] when the program is killed once [n] files have been handled:
    the same run with the loop cut after [n] iterations and nothing after
    it. *)
Definition process_killed (n : nat) (input_path : Path) : M unit :=
  do! plan := prepare input_path in
  match plan with
  | None => ret tt
  | Some (_, files_to_process) =>
      for_files (take n files_to_process) [] ;; ret tt
  end.

End Tagger.
Arguments Env : clear implicits.
End Tagger.

(** ** A concrete world, used to run the model *)

Module Sample.

Definition blip : Captioner.Blip string string string := {|
  Captioner.processor_call img :=
    if String.eqb img "" then Raise (RuntimeError "empty image") else Ok img;
  Captioner.generate inputs := Ok inputs;
  Captioner.decode out := Ok (" " +:+ out +:+ " ");
|}.

Definition broken_blip : Captioner.Blip string string string := {|
  Captioner.processor_call img := Ok img;
  Captioner.generate inputs := Raise (RuntimeError "out of memory");
  Captioner.decode out := Ok out;
|}.

Definition a_jpg : Path := ["in"; "a.jpg"].
Definition b_png : Path := ["in"; "b.PNG"].
Definition clip_mp4 : Path := ["in"; "clip.mp4"].
Definition sub_a_jpg : Path := ["in"; "sub"; "a.jpg"].

Definition tree : gmap Path kind :=
  list_to_map
    [ (["in"], Directory); (clip_mp4, RegularFile); (b_png, RegularFile);
      (["in"; "sub"], Directory); (sub_a_jpg, RegularFile);
      (["in"; "notes.txt"], RegularFile); (a_jpg, RegularFile);
      (["in"; "photos.jpg"], Directory); (["other.png"], RegularFile) ].

Definition picture : Processors.ImageFile string := {|
  Processors.mode := "RGB";
  Processors.width := 640;
  Processors.height := 480;
  Processors.pixels := "a cat";
  Processors.convert_rgb := Ok "a cat";
|}.

Definition movie (frames : Z) : Processors.VideoCapture string := {|
  Processors.isOpened := true;
  Processors.frame_count := frames;
  Processors.read_at i := if (0 <=? i) && (i <? frames) then Some "a dog" else None;
|}.

(** [b.PNG] cannot be decoded; everything else opens. *)
Definition env : Tagger.Env string string string := {|
  Tagger.blip := blip;
  Tagger.tree := tree;
  Tagger.image_open p :=
    if bool_decide (p = b_png) then Raise (OSError "cannot identify image file")
    else Ok picture;
  Tagger.video_capture p := movie 100;
  Tagger.st_size p := Ok 2048;
  Tagger.now p := "2024-01-01 00:00:00";
  Tagger.str_float n := pretty (n / 1024) +:+ ".0";
|}.

Definition tagger (skip continuous : bool) (format : string) : Tagger.AITagger := {|
  Tagger.verbose := false;
  Tagger.batch_mode := false;
  Tagger.skip_existing := skip;
  Tagger.continuous_save := continuous;
  Tagger.format_type := format;
|}.

(** No ledger yet. *)
Definition fresh : World := {| ledger := None; log := [] |}.

(** A ledger whose third record cannot be read. *)
Definition damaged_ledger : World := {|
  ledger := Some [Row ["filename"; "caption"]; Row ["a.jpg"; "a cat"]; Corrupt;
                  Row ["b.PNG"; "ERROR"]];
  log := [];
|}.

Definition basic_ledger : World := {|
  ledger := Some [Row ["filename"; "caption"]; Row ["a.jpg"; "a cat"]];
  log := [];
|}.

(** A directory with three files, two of them already in the ledger. *)
Definition abc_env : Tagger.Env string string string := {|
  Tagger.blip := blip;
  Tagger.tree :=
    list_to_map
      [ (["d"], Directory); (["d"; "c.gif"], RegularFile);
        (["d"; "a.jpg"], RegularFile); (["d"; "b.png"], RegularFile) ];
  Tagger.image_open p := Ok picture;
  Tagger.video_capture p := movie 3;
  Tagger.st_size p := Ok 2048;
  Tagger.now p := "2024-01-01 00:00:00";
  Tagger.str_float n := pretty (n / 1024) +:+ ".0";
|}.

Definition ab_ledger : World := {|
  ledger := Some [Row ["filename"; "caption"]; Row ["a.jpg"; "a cat"];
                  Row ["b.png"; "a cat"]];
  log := [];
|}.

End Sample.

(** ** What the claims talk about *)

Module Spec.
Section Spec.

Context {Image Inputs Tokens : Type}.

(** Caption generation fails internally: one of the three stages raises. *)
Definition inference_fails (blip : Captioner.Blip Image Inputs Tokens) (image : Image)
  : Prop :=
  (∃ e, Captioner.processor_call blip image = Raise e)
  ∨ (∃ inputs e, Captioner.processor_call blip image = Ok inputs
                 ∧ Captioner.generate blip inputs = Raise e)
  ∨ (∃ inputs out e, Captioner.processor_call blip image = Ok inputs
                     ∧ Captioner.generate blip inputs = Ok out
                     ∧ Captioner.decode blip out = Raise e).

(** [N] positions evenly spaced across [total_frames] frames: 0, step,
    2*step, ... where the step is the [N]-th part of the frame count, rounded
    down (the one integer with [N * step ≤ total_frames < N * (step + 1)]). *)
Definition evenly_spaced (N total_frames : Z) (indices : list Z) : Prop :=
  ∃ step,
    0 < step
    ∧ N * step ≤ total_frames < N * (step + 1)
    ∧ ∀ (i : nat) x, indices !! i = Some x → x = Z.of_nat i * step.

(** The sampling rule in the words of the specification: every index when
    there are at most [N] frames, otherwise exactly [N] indices, evenly spaced
    across the total frame count. *)
Definition sampled (N total_frames : Z) : Prop :=
  ∃ indices,
    Processors.frame_indices N total_frames = Ok indices
    ∧ (total_frames ≤ N →
       indices = List.map Z.of_nat (List.seq 0 (Z.to_nat total_frames)))
    ∧ (N < total_frames →
       Z.of_nat (length indices) = N
       ∧ evenly_spaced N total_frames indices
       ∧ Forall (fun x => 0 ≤ x < total_frames) indices).

(** The recognized image and video extensions, as the specification lists
    them. *)
Definition extensions : list string :=
  [".jpg"; ".jpeg"; ".png"; ".bmp"; ".tiff"; ".webp";
   ".mp4"; ".avi"; ".mov"; ".mkv"; ".gif"; ".webm"].

(** The extension of [path], compared case-insensitively, is recognized. *)
Definition recognized (path : Path) : Prop :=
  PyStr.lower (PyPath.suffix path) ∈ extensions.

(** The rows a reader yields before reading first raises. *)
Fixpoint readable (reader : list item) : list (list string) :=
  match reader with
  | Row fields :: rest => fields :: readable rest
  | _ => []
  end.

(** The rows of the ledger below its header row. *)
Definition data_rows (ledger : option (list item)) : list (list string) :=
  match ledger with
  | None => []
  | Some reader => tail (readable reader)
  end.

(** The first field of every row that has one. *)
Definition first_column (rows : list (list string)) : gset string :=
  list_to_set (omap head rows).

(** The resume set in the words of the specification: the first column of
    the existing ledger, header skipped. *)
Definition resume_set (ledger : option (list item)) : gset string :=
  first_column (data_rows ledger).

(** The files whose processing the log records, in order. *)
Fixpoint captioned (log : list event) : list Path :=
  match log with
  | [] => []
  | Captioning file :: rest => file :: captioned rest
  | _ :: rest => captioned rest
  end.

Variable env : Tagger.Env Image Inputs Tokens.
Variable self : Tagger.AITagger.

(** The tuple a file ends up with. *)
Definition outcome (file : Path) : list cell :=
  match Tagger._process_single_file env file with
  | Ok caption => Tagger.success_result env self file caption
  | Raise _ => Tagger.error_result env self file
  end.

(** The CSV row a file ends up with. *)
Definition outcome_row (file : Path) : list string :=
  Tagger.writerow env (outcome file).

(** The resume set the run works with. *)
Definition existing_at (w : World) : gset string :=
  if Tagger.skip_existing self then resume_set (ledger w) else ∅.

(** The run is resuming: skipping is enabled and the resume set is not
    empty. *)
Definition is_resuming (w : World) : bool := Tagger.resuming self (existing_at w).

(** The files a run over [input_path] has to process. *)
Definition to_process (input_path : Path) (w : World) : list Path :=
  if is_resuming w then
    Tagger.not_existing (existing_at w) (Tagger._get_files env input_path)
  else Tagger._get_files env input_path.

(** The ledger once the header is ensured. *)
Definition with_header (w : World) : list item :=
  match ledger w with
  | None => [Row (Tagger.header self)]
  | Some rows => rows
  end.

(** The world after the first statement of [process]. *)
Definition started (w : World) : World :=
  if Tagger.continuous_save self then
    match ledger w with
    | None => {| ledger := Some [Row (Tagger.header self)];
                 log := log w ++ [Wrote [Tagger.header self]] |}
    | Some _ => w
    end
  else w.

(** The two events of one iteration in incremental mode. *)
Definition saved_at_once (file : Path) : list event :=
  [Captioning file; Appended [outcome_row file]].

(** What the result rows of a run are written after. *)
Definition ledger_base (w : World) : list item :=
  if Tagger.continuous_save self then with_header w
  else if is_resuming w then default [] (ledger w)
  else [Row (Tagger.header self)].

(** The buffered mode in the words of the specification: the rows are
    written once, after every file has been processed; appended to the
    existing ledger when resuming, and otherwise written over the ledger
    below the header of the chosen format. *)
Definition buffered_run (input_path : Path) (w : World) : Prop :=
  let files := to_process input_path w in
  let rows := List.map outcome_row files in
  ∃ w', Tagger.process env self input_path w = (Ok tt, w')
    ∧ if is_resuming w then
        (∃ old, ledger w = Some old ∧ ledger w' = Some (old ++ List.map Row rows))
        ∧ log w' = log w ++ List.map Captioning files ++ [Appended rows]
      else
        ledger w' = Some (List.map Row (Tagger.header self :: rows))
        ∧ log w' = log w ++ List.map Captioning files
                         ++ [Wrote (Tagger.header self :: rows)].

(** The incremental mode in the words of the specification, at the moment
    [n] files have been handled: the ledger is the header row of the chosen
    format followed by rows that end with the rows of the handled files, one
    per file ([earlier] leaves room for the rows of earlier runs). *)
Definition incremental_ledger (input_path : Path) (w : World) (n : nat) : Prop :=
  let header :=
    if String.eqb (Tagger.format_type self) "detailed" then
      ["filename"; "caption"; "size_kb"; "dimensions"; "file_type"; "date_processed"]
    else ["filename"; "caption"] in
  let rows := List.map outcome_row (take n (to_process input_path w)) in
  ∃ w' earlier,
    Tagger.process_killed env self n input_path w = (Ok tt, w')
    ∧ ledger w' = Some (Row header :: earlier ++ List.map Row rows).

End Spec.
End Spec.

(** ** src/main.py *)

Module Main.
Section Main.

Context {Image Inputs Tokens : Type}.
Variable env : Tagger.Env Image Inputs Tokens.

(** What [parser.parse_args()] returns. *)
Record Namespace := {
  input_path : Path;
  output : string;
  verbose : bool;
  batch : bool;
  no_skip : bool;
  no_continuous : bool;
  format : string;
}.

(** How the program ends: [sys.exit(code)], or the end of [main]. *)
Inductive ending :=
  | Exit (code : Z)
  | Done.

(** [input_path.exists()] *)
Definition path_exists (path : Path) : bool :=
  bool_decide (is_Some (Tagger.tree env !! path)).

(** [main] once the arguments are parsed; the models of [env] are the ones
    the constructor of [AITagger] loads. *)
Definition main (args : Namespace) : M ending :=
  if negb (path_exists (input_path args)) then ret (Exit 1)
  else
    let tagger :=
      {| Tagger.verbose := verbose args;
         Tagger.batch_mode := batch args;
         Tagger.skip_existing := negb (no_skip args);
         Tagger.continuous_save := negb (no_continuous args);
         Tagger.format_type := format args |} in
    Tagger.process env tagger (input_path args) ;; ret Done.

End Main.
End Main.

(** ** Conditions on the ledger and further sample data *)

Module Ledger.

(** The ledger is absent, or it is readable to its end and has a first
    row. *)
Definition intact (ledger : option (list item)) : Prop :=
  ledger = None ∨ ∃ header rows, ledger = Some (Row header :: List.map Row rows).

(** Every record of the ledger is a row of [width] fields. *)
Definition uniform (width : nat) (ledger : option (list item)) : Prop :=
  ∀ items, ledger = Some items →
    Forall (fun record => ∃ fields, record = Row fields ∧ length fields = width) items.

(** The records of the ledger ([[]] when it is absent). *)
Definition records (ledger : option (list item)) : list item := default [] ledger.

End Ledger.

Module Cases.

(** A video that opens and reports ten frames, none of which can be read. *)
Definition blank_movie : Processors.VideoCapture string := {|
  Processors.isOpened := true;
  Processors.frame_count := 10;
  Processors.read_at i := None;
|}.

(** A file [cv2] cannot open. *)
Definition closed_movie : Processors.VideoCapture string := {|
  Processors.isOpened := false;
  Processors.frame_count := 0;
  Processors.read_at i := None;
|}.

(** A palette image whose conversion to RGB fails. *)
Definition palette_picture : Processors.ImageFile string := {|
  Processors.mode := "P";
  Processors.width := 16;
  Processors.height := 16;
  Processors.pixels := "a palette";
  Processors.convert_rgb := Raise (OSError "image file is truncated");
|}.

(** The command line [main.py in]. *)
Definition default_args : Main.Namespace := {|
  Main.input_path := ["in"];
  Main.output := "captions.csv";
  Main.verbose := false;
  Main.batch := false;
  Main.no_skip := false;
  Main.no_continuous := false;
  Main.format := "detailed";
|}.

(** The command line [main.py missing --no-continuous --format basic]. *)
Definition missing_args : Main.Namespace := {|
  Main.input_path := ["missing"];
  Main.output := "captions.csv";
  Main.verbose := false;
  Main.batch := false;
  Main.no_skip := false;
  Main.no_continuous := true;
  Main.format := "basic";
|}.

(** The sample world with another clock, as on a later day. *)
Definition later_env : Tagger.Env string string string := {|
  Tagger.blip := Sample.blip;
  Tagger.tree := Sample.tree;
  Tagger.image_open := Tagger.image_open Sample.env;
  Tagger.video_capture := Tagger.video_capture Sample.env;
  Tagger.st_size := Tagger.st_size Sample.env;
  Tagger.now p := "2024-01-02 09:30:00";
  Tagger.str_float := Tagger.str_float Sample.env;
|}.

(** An output file that exists and is empty. *)
Definition empty_file : World := {| ledger := Some []; log := [] |}.

End Cases.

(** * Properties *)

(** ** The order on paths *)

Section PathOrder.

Lemma string_compare_refl (a : string) : String.compare a a = Eq.
Proof.
  pose proof (String.compare_antisym a a) as H.
  by destruct (String.compare a a).
Qed.

Lemma string_compare_lt (a b : string) :
  String.compare a b = Lt ↔ String.le a b ∧ a ≠ b.
Proof.
  unfold String.le, String.leb. split.
  - intros H. rewrite H. split; [done|].
    intros ->. by rewrite string_compare_refl in H.
  - intros [Hle Hne]. destruct (String.compare a b) eqn:Hc; [|done|done].
    by apply String.compare_eq_iff in Hc.
Qed.

Lemma string_compare_lt_trans (a b c : string) :
  String.compare a b = Lt → String.compare b c = Lt → String.compare a c = Lt.
Proof.
  rewrite !string_compare_lt. intros [Hab Hne] [Hbc _]. split.
  - by etrans.
  - intros <-. apply Hne. by apply (anti_symm String.le).
Qed.

#[global] Instance path_le_total : Total PyPath.le.
Proof.
  unfold PyPath.le. intros p. induction p as [|a p IH]; intros [|b q]; cbn; auto.
  rewrite (String.compare_antisym b a).
  destruct (String.compare a b); cbn; auto.
Qed.

#[global] Instance path_le_trans : Transitive PyPath.le.
Proof.
  unfold PyPath.le. intros p.
  induction p as [|a p IH]; intros [|b q] [|c r]; cbn; try done.
  destruct (String.compare a b) eqn:Hab; [| |done].
  - apply String.compare_eq_iff in Hab as ->.
    destruct (String.compare b c); [apply IH|done|done].
  - destruct (String.compare b c) eqn:Hbc; [| |done].
    + apply String.compare_eq_iff in Hbc as ->. by rewrite Hab.
    + by rewrite (string_compare_lt_trans a b c).
Qed.

End PathOrder.

(** ** Discovery *)

Section DiscoveryFacts.

Context {Image Inputs Tokens : Type}.
Variable env : Tagger.Env Image Inputs Tokens.

Lemma is_supported_recognized path :
  Tagger._is_supported path = true ↔ Spec.recognized path.
Proof.
  unfold Tagger._is_supported, Spec.recognized, Spec.extensions,
    Tagger.SUPPORTED_IMAGES, Tagger.SUPPORTED_VIDEOS.
  rewrite orb_true_iff, !bool_decide_eq_true.
  rewrite !elem_of_union, !elem_of_singleton, !elem_of_cons, elem_of_nil.
  tauto.
Qed.

Lemma is_file_spec path :
  Tagger.is_file env path = true ↔ Tagger.tree env !! path = Some RegularFile.
Proof.
  unfold Tagger.is_file.
  destruct (Tagger.tree env !! path) as [[]|]; split; done.
Qed.

Lemma elem_of_rglob dir path :
  Tagger.tree env !! dir = Some Directory →
  path ∈ Tagger.rglob env dir
  ↔ is_Some (Tagger.tree env !! path) ∧ dir `prefix_of` path ∧ path ≠ dir.
Proof.
  intros Hdir. unfold Tagger.rglob. rewrite Hdir.
  rewrite list_elem_of_In, List.filter_In, <- list_elem_of_In.
  rewrite andb_true_iff, negb_true_iff, bool_decide_eq_true, bool_decide_eq_false.
  rewrite list_elem_of_fmap. split.
  - intros [([p k] & -> & Hin) Hrest]. split; [|done].
    apply elem_of_map_to_list in Hin. by exists k.
  - intros ([k Hk] & Hrest). split; [|done].
    exists (path, k). split; [done|]. by apply elem_of_map_to_list.
Qed.

Lemma rglob_NoDup dir : NoDup (Tagger.rglob env dir).
Proof.
  unfold Tagger.rglob. destruct (Tagger.tree env !! dir) as [[]|]; try constructor.
  apply NoDup_ListNoDup, List.NoDup_filter, NoDup_ListNoDup, NoDup_fst_map_to_list.
Qed.

(** C6: over a directory the discovered files are sorted, without
    repetition, and are exactly the regular files below it at any depth
    whose lower-cased extension is one of the twelve recognized ones; a
    single file is returned alone if its extension is recognized and gives
    the empty list otherwise. *)
Theorem discovery_sorted_and_exact dir :
  Tagger.tree env !! dir = Some Directory →
  StronglySorted PyPath.le (Tagger._get_files env dir)
  ∧ NoDup (Tagger._get_files env dir)
  ∧ (∀ path, path ∈ Tagger._get_files env dir
       ↔ Tagger.tree env !! path = Some RegularFile
         ∧ dir `prefix_of` path
         ∧ Spec.recognized path)
  ∧ (∀ file, Tagger.tree env !! file = Some RegularFile →
       (Spec.recognized file → Tagger._get_files env file = [file])
       ∧ (¬ Spec.recognized file → Tagger._get_files env file = [])).
Proof.
  intros Hdir.
  assert (Hnofile : Tagger.is_file env dir = false).
  { unfold Tagger.is_file. by rewrite Hdir. }
  unfold Tagger._get_files at 1 2 3. rewrite Hnofile.
  split; [apply StronglySorted_merge_sort; apply _|].
  split; [|split].
  - rewrite merge_sort_Permutation.
    apply NoDup_ListNoDup, List.NoDup_filter, NoDup_ListNoDup, rglob_NoDup.
  - intros path. rewrite merge_sort_Permutation.
    rewrite list_elem_of_In, List.filter_In, <- list_elem_of_In.
    rewrite elem_of_rglob by done.
    rewrite andb_true_iff, is_file_spec, is_supported_recognized.
    split; [tauto|]. intros (Hfile & Hprefix & Hrec).
    assert (path ≠ dir) by (intros ->; by rewrite Hdir in Hfile).
    assert (is_Some (Tagger.tree env !! path)) by (by rewrite Hfile).
    tauto.
  - intros file Hfile. unfold Tagger._get_files.
    apply is_file_spec in Hfile as ->.
    pose proof (is_supported_recognized file) as Hsup.
    destruct (Tagger._is_supported file); split; intros H; try done.
    + destruct H. by apply Hsup.
    + apply Hsup in H. done.
Qed.

End DiscoveryFacts.

(** ** Captioner and processors *)

Section ProcessorFacts.

Context {Image Inputs Tokens : Type}.
Implicit Types (blip : Captioner.Blip Image Inputs Tokens) (image : Image).
Implicit Types (video : Processors.VideoCapture Image).

Lemma caption_total blip image : ∃ s, Captioner.caption blip image = Ok s.
Proof.
  unfold Captioner.caption.
  destruct (Captioner.processor_call blip image) as [inputs|e]; cbn; [|eauto].
  destruct (Captioner.generate blip inputs) as [out|e]; cbn; [|eauto].
  destruct (Captioner.decode blip out) as [c|e]; cbn; eauto.
Qed.

(** C8: when a stage of caption generation raises, [caption] returns the
    fixed string "Caption generation failed"; and [caption] never raises,
    whatever the model does. *)
Theorem caption_failure_gives_sentinel blip image :
  Spec.inference_fails blip image →
  Captioner.caption blip image = Ok "Caption generation failed"
  ∧ ∀ image', ∃ s, Captioner.caption blip image' = Ok s.
Proof.
  intros Hfail. split; [|intros; apply caption_total].
  unfold Captioner.caption.
  destruct Hfail as [[e ->]|[(inputs & e & -> & Hg)|(inputs & out & e & -> & Hg & Hd)]];
    cbn; [done| |]; rewrite Hg; cbn; [done|].
  by rewrite Hd.
Qed.

(** C7: an opened video whose frame count is zero gives the string
    "No frames extracted from video", not an exception. *)
Theorem zero_frames_result blip max_frames video :
  Processors.isOpened video = true →
  Processors.frame_count video = 0 →
  Processors.video_process blip max_frames video = Ok "No frames extracted from video".
Proof.
  intros Hopen Hcount.
  unfold Processors.video_process, Processors._extract_frames.
  by rewrite Hopen, Hcount.
Qed.

End ProcessorFacts.

Lemma caption_failure_gives_sentinel_witness :
  Captioner.caption Sample.broken_blip "a cat" = Ok "Caption generation failed"
  ∧ ∀ image', ∃ s, Captioner.caption Sample.broken_blip image' = Ok s.
Proof.
  apply (caption_failure_gives_sentinel Sample.broken_blip "a cat").
  right; left. exists "a cat", (RuntimeError "out of memory"). split; reflexivity.
Defined.

Lemma zero_frames_result_witness :
  Processors.video_process Sample.blip 5 (Sample.movie 0)
  = Ok "No frames extracted from video".
Proof.
  apply (zero_frames_result Sample.blip 5 (Sample.movie 0)); reflexivity.
Defined.

(** ** Frame sampling *)

Lemma range_lookup (n : Z) (i : nat) x :
  Processors.range n !! i = Some x → x = Z.of_nat i ∧ Z.of_nat i < n.
Proof.
  unfold Processors.range. intros H.
  apply list_lookup_fmap_Some in H as (k & -> & Hk).
  apply lookup_seq in Hk as [-> Hlt]. split; [done|]. lia.
Qed.

Lemma range_length (n : Z) : 0 ≤ n → Z.of_nat (length (Processors.range n)) = n.
Proof.
  intros Hn. unfold Processors.range.
  rewrite length_map, length_seq. lia.
Qed.

(** C2 (amended): for [max_frames] at least 1 and a positive frame count,
    every index 0..total_frames-1 is sampled when total_frames ≤ max_frames,
    and otherwise exactly max_frames indices, evenly spaced across the total
    frame count: index i is i times the max_frames-th part of the frame count
    (rounded down), and all of them lie inside the video. *)
Theorem frame_sampling (N total_frames : Z) :
  1 ≤ N → 0 < total_frames → Spec.sampled N total_frames.
Proof.
  intros HN Htotal. unfold Spec.sampled, Processors.frame_indices.
  destruct (Z.leb_spec total_frames N) as [Hle|Hgt].
  - eexists. split; [reflexivity|]. split; [done|lia].
  - unfold Processors.floordiv.
    destruct (Z.eqb_spec N 0) as [->|_]; [lia|]. cbn.
    eexists. split; [reflexivity|]. split; [lia|]. intros _.
    assert (Hstep : 0 < total_frames / N) by (apply Z.div_str_pos; lia).
    assert (Hmul : N * (total_frames / N) ≤ total_frames)
      by (apply Z.mul_div_le; lia).
    split; [|split].
    + rewrite length_map. apply range_length. lia.
    + exists (total_frames / N). split; [done|]. split.
      * pose proof (Z.mul_succ_div_gt total_frames N ltac:(lia)). lia.
      * intros i x Hx.
        apply list_lookup_fmap_Some in Hx as (k & -> & Hk).
        by apply range_lookup in Hk as [-> _].
    + apply list.Forall_forall. intros x Hx.
      apply list_elem_of_fmap in Hx as (k & -> & Hk).
      apply list_elem_of_lookup in Hk as [i Hi].
      apply range_lookup in Hi as [-> Hlt]. nia.
Qed.

Lemma frame_sampling_witness : Spec.sampled 5 100.
Proof. apply (frame_sampling 5 100); lia. Defined.

(** C2 as stated fails for [max_frames = 0]: the division of line 52 raises
    and no index is sampled. *)
Lemma frame_sampling_zero_max_frames :
  Processors.frame_indices 0 1 = Raise ZeroDivisionError
  ∧ ¬ (0 < 1 → Spec.sampled 0 1).
Proof.
  split; [reflexivity|].
  intros H. destruct (H ltac:(lia)) as (l & Hl & _). discriminate Hl.
Qed.

(** ** The resume set *)

Section ResumeFacts.

Lemma readable_rows rows rest :
  Spec.readable (List.map Row rows ++ Corrupt :: rest) = rows.
Proof. induction rows as [|r rows IH]; cbn; [done|]. by rewrite IH. Qed.

Lemma readable_all rows : Spec.readable (List.map Row rows) = rows.
Proof. induction rows as [|r rows IH]; cbn; [done|]. by rewrite IH. Qed.

Lemma read_rows_fst reader acc :
  (Tagger.read_rows reader acc).1 = Spec.first_column (Spec.readable reader) ∪ acc.
Proof.
  unfold Spec.first_column.
  revert acc. induction reader as [|[fields|] rest IH]; intros acc; cbn.
  - by rewrite (left_id_L ∅ (∪)).
  - rewrite IH. destruct fields as [|first fields]; cbn; [done|].
    rewrite (assoc_L (∪)). f_equal. apply (comm_L (∪)).
  - by rewrite (left_id_L ∅ (∪)).
Qed.

Lemma read_ledger_fst reader :
  (Tagger.read_ledger reader).1 = Spec.resume_set (Some reader).
Proof.
  unfold Spec.resume_set, Spec.data_rows.
  destruct reader as [|[fields|] rest]; cbn; [done| |done].
  rewrite read_rows_fst. apply (right_id_L ∅ (∪)).
Qed.

Lemma get_existing_files_spec w :
  Tagger._get_existing_files w = (Ok (Spec.resume_set (ledger w)), w).
Proof.
  unfold Tagger._get_existing_files.
  destruct (ledger w) as [reader|] eqn:Hl; [|done].
  pose proof (read_ledger_fst reader) as Hfst.
  destruct (Tagger.read_ledger reader) as [existing [[]|e]]; cbn in *; by subst.
Qed.

(** C10: [_get_existing_files] always returns and leaves the world as it
    is; without a ledger the set is empty, and when reading raises part-way
    the set holds the entries of the rows read before that. *)
Theorem get_existing_files_never_raises w :
  (∃ existing_files, Tagger._get_existing_files w = (Ok existing_files, w))
  ∧ (ledger w = None → Tagger._get_existing_files w = (Ok ∅, w))
  ∧ (∀ rest, ledger w = Some (Corrupt :: rest) →
       Tagger._get_existing_files w = (Ok ∅, w))
  ∧ (∀ header rows rest,
       ledger w = Some (Row header :: List.map Row rows ++ Corrupt :: rest) →
       Tagger._get_existing_files w = (Ok (Spec.first_column rows), w)).
Proof.
  rewrite get_existing_files_spec. split; [eauto|].
  split; [by intros ->|]. split; [by intros rest ->|].
  intros header rows rest ->. do 2 f_equal.
  unfold Spec.resume_set, Spec.data_rows. cbn. by rewrite readable_rows.
Qed.

End ResumeFacts.

(** ** The run *)

Section RunFacts.

Context {Image Inputs Tokens : Type}.
Variable env : Tagger.Env Image Inputs Tokens.
Variable self : Tagger.AITagger.

Abbreviation outcome := (Spec.outcome env self).
Abbreviation outcome_row := (Spec.outcome_row env self).
Abbreviation to_process := (Spec.to_process env self).

Abbreviation started := (Spec.started self).

Lemma ensure_csv_headers_spec w :
  Tagger.continuous_save self = true →
  Tagger._ensure_csv_headers self w = (Ok tt, started w).
Proof.
  intros Hc. unfold Spec.started, Tagger._ensure_csv_headers, bind, Tagger.exists_.
  rewrite Hc. by destruct w as [[rows|] lg].
Qed.

Lemma started_ledger w :
  Tagger.continuous_save self = true →
  ledger (started w) = Some (Spec.with_header self w).
Proof.
  intros Hc. unfold Spec.started, Spec.with_header. rewrite Hc.
  destruct (ledger w) eqn:Hl; [by rewrite Hl|done].
Qed.

Lemma started_resume_set w :
  Spec.resume_set (ledger (started w)) = Spec.resume_set (ledger w).
Proof.
  unfold Spec.started. destruct (Tagger.continuous_save self); [|done].
  destruct (ledger w) eqn:Hl; [by rewrite Hl|done].
Qed.

Lemma started_buffered w : Tagger.continuous_save self = false → started w = w.
Proof. intros Hc. unfold Spec.started. by rewrite Hc. Qed.

Lemma prepare_spec input_path w :
  Tagger.prepare env self input_path w =
  (Ok match to_process input_path w with
      | [] => None
      | files => Some (Spec.existing_at self w, files)
      end, started w).
Proof.
  unfold Tagger.prepare, bind.
  assert (Hfirst :
    (if Tagger.continuous_save self then Tagger._ensure_csv_headers self else ret tt) w
    = (Ok tt, started w)).
  { destruct (Tagger.continuous_save self) eqn:Hc.
    - by apply ensure_csv_headers_spec.
    - by rewrite started_buffered. }
  rewrite Hfirst.
  assert (Hread :
    (if Tagger.skip_existing self then Tagger._get_existing_files else ret ∅) (started w)
    = (Ok (Spec.existing_at self w), started w)).
  { unfold Spec.existing_at. destruct (Tagger.skip_existing self); [|done].
    by rewrite get_existing_files_spec, started_resume_set. }
  rewrite Hread.
  unfold Spec.to_process, Spec.is_resuming.
  destruct (Tagger._get_files env input_path) as [|f files] eqn:Hfiles.
  - by destruct (Tagger.resuming self (Spec.existing_at self w)).
  - destruct (Tagger.resuming self (Spec.existing_at self w)); [|done].
    by destruct (Tagger.not_existing _ _).
Qed.

Lemma process_file_spec file results w :
  Tagger.process_file env self file results w =
  if Tagger.continuous_save self then
    (Ok results,
     {| ledger := Some (default [] (ledger w) ++ [Row (outcome_row file)]);
        log := log w ++ [Captioning file; Appended [outcome_row file]] |})
  else
    (Ok (results ++ [outcome file]),
     {| ledger := ledger w; log := log w ++ [Captioning file] |}).
Proof.
  unfold Tagger.process_file, try_exceptM, bind, emit, lift, Tagger.record,
    Spec.outcome_row, Spec.outcome.
  destruct (Tagger._process_single_file env file) as [caption|e]; cbn;
    destruct (Tagger.continuous_save self); cbn; try done;
    by rewrite <- (assoc_L (++)).
Qed.

Lemma for_files_continuous files results rows lg :
  Tagger.continuous_save self = true →
  Tagger.for_files env self files results {| ledger := Some rows; log := lg |} =
  (Ok results,
   {| ledger := Some (rows ++ List.map Row (List.map outcome_row files));
      log := lg ++ List.flat_map (Spec.saved_at_once env self) files |}).
Proof.
  intros Hc. revert rows lg.
  induction files as [|f files IH]; intros rows lg; cbn.
  - by rewrite !(right_id_L [] (++)).
  - unfold bind. rewrite process_file_spec, Hc. cbn. rewrite IH.
    by rewrite <- !(assoc_L (++)).
Qed.

Lemma for_files_buffered files results w :
  Tagger.continuous_save self = false →
  Tagger.for_files env self files results w =
  (Ok (results ++ List.map outcome files),
   {| ledger := ledger w; log := log w ++ List.map Captioning files |}).
Proof.
  intros Hc. revert results w.
  induction files as [|f files IH]; intros results w; cbn.
  - rewrite !(right_id_L [] (++)). by destruct w.
  - unfold bind. rewrite process_file_spec, Hc. rewrite IH. cbn.
    by rewrite <- !(assoc_L (++)).
Qed.

Lemma captioned_app lg1 lg2 :
  Spec.captioned (lg1 ++ lg2) = Spec.captioned lg1 ++ Spec.captioned lg2.
Proof.
  induction lg1 as [|[f|rows|rows] lg1 IH]; cbn; [done| |done|done].
  by rewrite IH.
Qed.

Lemma captioned_captioning files : Spec.captioned (List.map Captioning files) = files.
Proof. induction files as [|f files IH]; cbn; [done|]. by rewrite IH. Qed.

Lemma captioned_saved_at_once files :
  Spec.captioned (List.flat_map (Spec.saved_at_once env self) files) = files.
Proof. induction files as [|f files IH]; cbn; [done|]. by rewrite IH. Qed.

Lemma captioned_started w : Spec.captioned (log (started w)) = Spec.captioned (log w).
Proof.
  unfold Spec.started. destruct (Tagger.continuous_save self); [|done].
  destruct (ledger w); [done|]. cbn. rewrite captioned_app. cbn.
  by rewrite (right_id_L [] (++)).
Qed.

(** Incremental mode: [process] cut after the files [files]. *)
Lemma loop_continuous files w :
  Tagger.continuous_save self = true →
  Tagger.for_files env self files [] (started w) =
  (Ok [],
   {| ledger := Some (Spec.with_header self w ++ List.map Row (List.map outcome_row files));
      log := log (started w) ++ List.flat_map (Spec.saved_at_once env self) files |}).
Proof.
  intros Hc. rewrite <- for_files_continuous by done.
  f_equal. rewrite <- started_ledger by done. by destruct (started w).
Qed.

Lemma process_killed_continuous n input_path w :
  Tagger.continuous_save self = true →
  Tagger.process_killed env self n input_path w =
  (Ok tt,
   {| ledger := Some (Spec.with_header self w
                      ++ List.map Row (List.map outcome_row (take n (to_process input_path w))));
      log := log (started w)
             ++ List.flat_map (Spec.saved_at_once env self) (take n (to_process input_path w)) |}).
Proof.
  intros Hc. unfold Tagger.process_killed, bind. rewrite prepare_spec.
  destruct (to_process input_path w) as [|f files] eqn:Hfiles.
  - rewrite take_nil. cbn. rewrite !(right_id_L [] (++)).
    rewrite <- started_ledger by done. by destruct (started w).
  - by rewrite loop_continuous.
Qed.

Lemma process_continuous input_path w :
  Tagger.continuous_save self = true →
  Tagger.process env self input_path w =
  (Ok tt,
   {| ledger := Some (Spec.with_header self w
                      ++ List.map Row (List.map outcome_row (to_process input_path w)));
      log := log (started w)
             ++ List.flat_map (Spec.saved_at_once env self) (to_process input_path w) |}).
Proof.
  intros Hc. unfold Tagger.process, bind. rewrite prepare_spec.
  destruct (to_process input_path w) as [|f files] eqn:Hfiles.
  - cbn. rewrite !(right_id_L [] (++)).
    rewrite <- started_ledger by done. by destruct (started w).
  - rewrite loop_continuous by done.
    unfold Tagger.save_results. by rewrite Hc.
Qed.

Lemma process_buffered_nothing input_path w :
  Tagger.continuous_save self = false →
  to_process input_path w = [] →
  Tagger.process env self input_path w = (Ok tt, w).
Proof.
  intros Hc Hfiles. unfold Tagger.process, bind.
  by rewrite prepare_spec, Hfiles, started_buffered.
Qed.

Lemma process_buffered input_path w :
  Tagger.continuous_save self = false →
  to_process input_path w ≠ [] →
  let rows := List.map outcome_row (to_process input_path w) in
  Tagger.process env self input_path w =
  (Ok tt,
   if Spec.is_resuming self w then
     {| ledger := Some (default [] (ledger w) ++ List.map Row rows);
        log := (log w ++ List.map Captioning (to_process input_path w))
               ++ [Appended rows] |}
   else
     {| ledger := Some (List.map Row (Tagger.header self :: rows));
        log := (log w ++ List.map Captioning (to_process input_path w))
               ++ [Wrote (Tagger.header self :: rows)] |}).
Proof.
  intros Hc Hfiles rows. unfold Tagger.process, bind. rewrite prepare_spec.
  destruct (to_process input_path w) as [|f files] eqn:Hf; [done|].
  rewrite for_files_buffered, started_buffered by done.
  unfold Tagger.save_results. rewrite Hc. cbn [negb].
  fold (Spec.is_resuming self w).
  destruct (Spec.is_resuming self w); cbn; subst rows;
    unfold Spec.outcome_row, Tagger._write_csv, Tagger.open_a, Tagger.open_w; cbn;
    by rewrite ?List.map_map.
Qed.

End RunFacts.

(** ** Resume, persistence and failure containment *)

Section RunClaims.

Context {Image Inputs Tokens : Type}.
Variable env : Tagger.Env Image Inputs Tokens.
Variable self : Tagger.AITagger.

Abbreviation outcome_row := (Spec.outcome_row env self).
Abbreviation to_process := (Spec.to_process env self).

Lemma not_existing_empty files : Tagger.not_existing ∅ files = files.
Proof.
  unfold Tagger.not_existing.
  induction files as [|f files IH]; cbn; [done|]. by rewrite IH.
Qed.

Lemma to_process_skipping input_path w :
  Tagger.skip_existing self = true →
  to_process input_path w
  = Tagger.not_existing (Spec.resume_set (ledger w)) (Tagger._get_files env input_path).
Proof.
  intros Hs. unfold Spec.to_process, Spec.is_resuming, Tagger.resuming, Spec.existing_at.
  rewrite Hs. cbn. case_bool_decide as Hempty; cbn; [|done].
  by rewrite Hempty, not_existing_empty.
Qed.

Lemma process_captioned input_path w :
  ∃ w', Tagger.process env self input_path w = (Ok tt, w')
        ∧ Spec.captioned (log w') = Spec.captioned (log w) ++ to_process input_path w.
Proof.
  destruct (Tagger.continuous_save self) eqn:Hc.
  - rewrite process_continuous by done. eexists. split; [done|]. cbn.
    by rewrite captioned_app, captioned_started, captioned_saved_at_once.
  - destruct (decide (to_process input_path w = [])) as [Hfiles|Hfiles].
    + rewrite process_buffered_nothing, Hfiles by done. eexists. split; [done|].
      by rewrite (right_id_L [] (++)).
    + rewrite process_buffered by done. eexists. split; [done|].
      destruct (Spec.is_resuming self w); cbn [log];
        rewrite !captioned_app, captioned_captioning; cbn;
        by rewrite (right_id_L [] (++)).
Qed.

Lemma elem_of_first_column s rows :
  s ∈ Spec.first_column rows ↔ ∃ fields, fields ∈ rows ∧ head fields = Some s.
Proof.
  unfold Spec.first_column. rewrite elem_of_list_to_set, list_elem_of_omap.
  done.
Qed.

(** C1: with skip-existing enabled the run processes exactly the discovered
    files whose name is not in the first column of the ledger (header
    skipped); over a ledger with the rows of A and B and discovered files
    A, B, C it processes only C. *)
Theorem resume_processes_only_new input_path w :
  Tagger.skip_existing self = true →
  ∃ w', Tagger.process env self input_path w = (Ok tt, w')
    ∧ Spec.captioned (log w')
      = Spec.captioned (log w)
        ++ List.filter (fun f => bool_decide (PyPath.name f ∉ Spec.resume_set (ledger w)))
                       (Tagger._get_files env input_path)
    ∧ ∀ A B C header rowA rowB,
        Tagger._get_files env input_path = [A; B; C] →
        ledger w = Some [Row header; Row (PyPath.name A :: rowA);
                         Row (PyPath.name B :: rowB)] →
        PyPath.name C ≠ PyPath.name A →
        PyPath.name C ≠ PyPath.name B →
        Spec.captioned (log w') = Spec.captioned (log w) ++ [C].
Proof.
  intros Hs. destruct (process_captioned input_path w) as (w' & Hrun & Hcap).
  rewrite to_process_skipping in Hcap by done. unfold Tagger.not_existing in Hcap.
  exists w'. split; [done|]. split; [done|].
  intros A B C header rowA rowB Hfiles Hledger HCA HCB.
  rewrite Hcap, Hfiles, Hledger. f_equal.
  unfold Spec.resume_set, Spec.data_rows, Spec.first_column. cbn.
  rewrite (bool_decide_eq_false_2 (PyPath.name A ∉ _)),
    (bool_decide_eq_false_2 (PyPath.name B ∉ _)),
    (bool_decide_eq_true_2 (PyPath.name C ∉ _)); [done|..];
    rewrite !elem_of_union, !elem_of_singleton, elem_of_empty; tauto.
Qed.

(** C9: with skip-existing enabled a discovered file is skipped exactly
    when its basename is the first field of some row below the header, so
    files that share a name are skipped together. *)
Theorem resume_compares_basenames input_path w :
  Tagger.skip_existing self = true →
  ∃ w' processed,
    Tagger.process env self input_path w = (Ok tt, w')
    ∧ Spec.captioned (log w') = Spec.captioned (log w) ++ processed
    ∧ (∀ f, f ∈ Tagger._get_files env input_path →
         (f ∉ processed ↔
          ∃ fields, fields ∈ Spec.data_rows (ledger w)
                    ∧ head fields = Some (PyPath.name f)))
    ∧ (∀ f g, f ∈ Tagger._get_files env input_path →
              g ∈ Tagger._get_files env input_path →
              PyPath.name f = PyPath.name g →
              PyPath.name f ∈ Spec.resume_set (ledger w) →
              (f ∉ processed) ∧ (g ∉ processed)).
Proof.
  intros Hs. destruct (process_captioned input_path w) as (w' & Hrun & Hcap).
  rewrite to_process_skipping in Hcap by done.
  exists w', (Tagger.not_existing (Spec.resume_set (ledger w))
                (Tagger._get_files env input_path)).
  split; [done|]. split; [done|].
  assert (Hskip : ∀ f, f ∈ Tagger._get_files env input_path →
    (f ∉ Tagger.not_existing (Spec.resume_set (ledger w))
           (Tagger._get_files env input_path)
     ↔ PyPath.name f ∈ Spec.resume_set (ledger w))).
  { intros f Hf. unfold Tagger.not_existing.
    rewrite list_elem_of_In, List.filter_In, <- list_elem_of_In, bool_decide_eq_true.
    split.
    - intros Hn. destruct (decide (PyPath.name f ∈ Spec.resume_set (ledger w))); tauto.
    - tauto. }
  split.
  - intros f Hf. rewrite Hskip by done. apply elem_of_first_column.
  - intros f g Hf Hg Hname Hin. split; apply Hskip; congruence.
Qed.

(** C3 (amended): in buffered mode, when at least one file is left to
    process, the rows of all files are written by a single write that comes
    after every file has been processed; it appends to the existing ledger
    when the run is resuming and otherwise writes the header of the chosen
    format and the rows over the ledger. *)
Theorem buffered_written_once input_path w :
  Tagger.continuous_save self = false →
  to_process input_path w ≠ [] →
  Spec.buffered_run env self input_path w.
Proof.
  intros Hc Hfiles. unfold Spec.buffered_run.
  rewrite process_buffered by done. eexists. split; [done|].
  destruct (Spec.is_resuming self w) eqn:Hres; cbn;
    rewrite <- ?(assoc_L (++)); [|done].
  split; [|done].
  destruct (ledger w) as [old|] eqn:Hl; [by exists old|].
  unfold Spec.is_resuming, Tagger.resuming, Spec.existing_at in Hres.
  rewrite Hl in Hres. by destruct (Tagger.skip_existing self).
Qed.

(** C4 (amended): in incremental mode, when the ledger does not exist at
    startup or already starts with the header row of the chosen format, then
    once [n] files have been handled the ledger is that header row (written
    at startup only when the file did not exist), the records it already
    held, and one row per handled file, each appended right after its file
    and before the next one is started; the complete run is the case where
    [n] covers every file. *)
Theorem incremental_prefix_durable input_path w n earlier :
  Tagger.continuous_save self = true →
  let header :=
    if String.eqb (Tagger.format_type self) "detailed" then
      ["filename"; "caption"; "size_kb"; "dimensions"; "file_type"; "date_processed"]
    else ["filename"; "caption"] in
  (ledger w = None ∧ earlier = []) ∨ ledger w = Some (Row header :: earlier) →
  let files := take n (to_process input_path w) in
  let rows := List.map outcome_row files in
  ∃ w', Tagger.process_killed env self n input_path w = (Ok tt, w')
    ∧ ledger w' = Some (Row header :: earlier ++ List.map Row rows)
    ∧ log w' = log w
               ++ (if ledger w is None then [Wrote [header]] else [])
               ++ List.flat_map (Spec.saved_at_once env self) files
    ∧ (length (to_process input_path w) ≤ n →
       Tagger.process env self input_path w = (Ok tt, w'))%nat.
Proof.
  intros Hc header Hstart files rows. rewrite process_killed_continuous by done.
  assert (Hheader : Tagger.header self = header) by done.
  eexists. split; [done|]. cbn [ledger log].
  unfold Spec.with_header, Spec.started. rewrite Hc, Hheader.
  split; [|split].
  - by destruct Hstart as [[-> ->]| ->].
  - destruct Hstart as [[-> ->]| ->]; cbn; [by rewrite <- (assoc_L (++))|done].
  - intros Hn. rewrite process_continuous by done. subst rows files.
    rewrite take_ge by done. unfold Spec.with_header, Spec.started.
    by rewrite Hc, Hheader.
Qed.

(** C5: when processing a file raises, the run still returns normally; the
    ledger holds the rows of the files before it, then a row for the file
    with the caption "ERROR" (in detailed format with size 0 and dimensions
    "unknown"), then the rows of the files after it, which are all
    processed. *)
Theorem failure_recorded_and_batch_continues input_path w pre file post e :
  to_process input_path w = pre ++ file :: post →
  Tagger._process_single_file env file = Raise e →
  let error_row :=
    if String.eqb (Tagger.format_type self) "detailed" then
      [PyPath.name file; "ERROR"; "0"; "unknown";
       PyStr.lower (PyPath.suffix file); Tagger.now env file]
    else [PyPath.name file; "ERROR"] in
  ∃ w', Tagger.process env self input_path w = (Ok tt, w')
    ∧ ledger w' = Some (Spec.ledger_base self w
                        ++ List.map Row (List.map outcome_row pre)
                        ++ Row error_row :: List.map Row (List.map outcome_row post))
    ∧ Spec.captioned (log w') = Spec.captioned (log w) ++ pre ++ file :: post.
Proof.
  intros Hfiles Hraise error_row.
  assert (Hrow : outcome_row file = error_row).
  { unfold Spec.outcome_row, Spec.outcome, Tagger.error_result, Tagger.detailed.
    rewrite Hraise. subst error_row.
    by destruct (String.eqb (Tagger.format_type self) "detailed"). }
  destruct (process_captioned input_path w) as (w' & Hrun & Hcap).
  exists w'. split; [done|]. rewrite Hcap, Hfiles. split; [|done].
  assert (Hne : to_process input_path w ≠ []) by (rewrite Hfiles; by destruct pre).
  unfold Spec.ledger_base. rewrite <- Hrow.
  change (Row (outcome_row file) :: List.map Row (List.map outcome_row post))
    with (List.map Row (List.map outcome_row (file :: post))).
  rewrite <- !List.map_app, <- Hfiles.
  destruct (Tagger.continuous_save self) eqn:Hc.
  - rewrite process_continuous in Hrun by done. by injection Hrun as <-.
  - rewrite process_buffered in Hrun by done. injection Hrun as <-.
    by destruct (Spec.is_resuming self w).
Qed.

End RunClaims.

(** ** The claims on a concrete run *)

Lemma discovery_sorted_and_exact_witness :
  StronglySorted PyPath.le (Tagger._get_files Sample.env ["in"])
  ∧ NoDup (Tagger._get_files Sample.env ["in"])
  ∧ (∀ path, path ∈ Tagger._get_files Sample.env ["in"]
       ↔ Tagger.tree Sample.env !! path = Some RegularFile
         ∧ ["in"] `prefix_of` path
         ∧ Spec.recognized path)
  ∧ (∀ file, Tagger.tree Sample.env !! file = Some RegularFile →
       (Spec.recognized file → Tagger._get_files Sample.env file = [file])
       ∧ (¬ Spec.recognized file → Tagger._get_files Sample.env file = [])).
Proof. apply (discovery_sorted_and_exact Sample.env ["in"]). reflexivity. Defined.

Lemma resume_processes_only_new_witness :
  ∃ w', Tagger.process Sample.abc_env (Sample.tagger true true "basic") ["d"]
          Sample.ab_ledger = (Ok tt, w')
        ∧ Spec.captioned (log w') = [["d"; "c.gif"]].
Proof.
  destruct (resume_processes_only_new Sample.abc_env (Sample.tagger true true "basic")
              ["d"] Sample.ab_ledger)
    as (w' & Hrun & _ & Hexample).
  - reflexivity.
  - exists w'. split; [exact Hrun|].
    apply (Hexample ["d"; "a.jpg"] ["d"; "b.png"] ["d"; "c.gif"]
             ["filename"; "caption"] ["a cat"] ["a cat"]).
    + vm_compute. reflexivity.
    + reflexivity.
    + vm_compute. discriminate.
    + vm_compute. discriminate.
Defined.

Lemma resume_compares_basenames_witness :
  ∃ w' processed,
    Tagger.process Sample.env (Sample.tagger true false "basic") ["in"]
      Sample.basic_ledger = (Ok tt, w')
    ∧ Spec.captioned (log w') = Spec.captioned (log Sample.basic_ledger) ++ processed
    ∧ (∀ f, f ∈ Tagger._get_files Sample.env ["in"] →
         (f ∉ processed ↔
          ∃ fields, fields ∈ Spec.data_rows (ledger Sample.basic_ledger)
                    ∧ head fields = Some (PyPath.name f)))
    ∧ (∀ f g, f ∈ Tagger._get_files Sample.env ["in"] →
              g ∈ Tagger._get_files Sample.env ["in"] →
              PyPath.name f = PyPath.name g →
              PyPath.name f ∈ Spec.resume_set (ledger Sample.basic_ledger) →
              (f ∉ processed) ∧ (g ∉ processed)).
Proof.
  apply (resume_compares_basenames Sample.env (Sample.tagger true false "basic")
           ["in"] Sample.basic_ledger).
  reflexivity.
Defined.

Lemma buffered_written_once_witness :
  Spec.buffered_run Sample.env (Sample.tagger true false "basic") ["in"]
    Sample.basic_ledger.
Proof.
  apply (buffered_written_once Sample.env (Sample.tagger true false "basic")
           ["in"] Sample.basic_ledger).
  - reflexivity.
  - vm_compute. discriminate.
Defined.

(** C3 as stated fails on a run that finds nothing to process (here the
    input is a single file of an unsupported type): [process] returns at
    line 64 and the ledger is not written, where the claim has it overwritten
    with the header. *)
Lemma buffered_run_without_files :
  Tagger.process Sample.env (Sample.tagger false false "basic") ["in"; "notes.txt"]
    Sample.fresh
  = (Ok tt, Sample.fresh)
  ∧ ¬ Spec.buffered_run Sample.env (Sample.tagger false false "basic")
        ["in"; "notes.txt"] Sample.fresh.
Proof.
  split; [vm_compute; reflexivity|].
  intros (w' & Hrun & Hclaim).
  assert (Hw : w' = Sample.fresh).
  { vm_compute in Hrun. by injection Hrun. }
  subst w'. vm_compute in Hclaim. destruct Hclaim as [Hledger _]. discriminate Hledger.
Qed.

Lemma incremental_prefix_durable_witness :
  let files := take 2 (Spec.to_process Sample.env (Sample.tagger true true "basic")
                         ["in"] Sample.fresh) in
  let rows := List.map (Spec.outcome_row Sample.env (Sample.tagger true true "basic"))
                files in
  ∃ w', Tagger.process_killed Sample.env (Sample.tagger true true "basic") 2 ["in"]
          Sample.fresh = (Ok tt, w')
    ∧ ledger w' = Some (Row ["filename"; "caption"] :: [] ++ List.map Row rows)
    ∧ log w' = log Sample.fresh
               ++ [Wrote [["filename"; "caption"]]]
               ++ List.flat_map
                    (Spec.saved_at_once Sample.env (Sample.tagger true true "basic"))
                    files
    ∧ (length (Spec.to_process Sample.env (Sample.tagger true true "basic")
                 ["in"] Sample.fresh) ≤ 2 →
       Tagger.process Sample.env (Sample.tagger true true "basic") ["in"] Sample.fresh
       = (Ok tt, w'))%nat.
Proof.
  apply (incremental_prefix_durable Sample.env (Sample.tagger true true "basic")
           ["in"] Sample.fresh 2 []).
  - reflexivity.
  - left. split; reflexivity.
Defined.

(** C4 as stated fails at an output file that exists and is empty: no header
    is written (line 187 asks only whether the file exists), so after two
    files the ledger is their two rows and nothing else. *)
Lemma incremental_run_over_empty_file :
  ledger (Tagger.process_killed Sample.abc_env (Sample.tagger true true "basic") 2 ["d"]
            Cases.empty_file).2
  = Some [Row ["a.jpg"; "a cat"]; Row ["b.png"; "a cat"]]
  ∧ ¬ Spec.incremental_ledger Sample.abc_env (Sample.tagger true true "basic") ["d"]
        Cases.empty_file 2.
Proof.
  split; [vm_compute; reflexivity|].
  intros (w' & earlier & Hrun & Hledger).
  assert (Hw : ledger w' = Some [Row ["a.jpg"; "a cat"]; Row ["b.png"; "a cat"]]).
  { vm_compute in Hrun. by injection Hrun as <-. }
  rewrite Hw in Hledger. discriminate Hledger.
Qed.

Lemma failure_recorded_and_batch_continues_witness :
  ∃ w', Tagger.process Sample.env (Sample.tagger true true "detailed") ["in"]
          Sample.fresh = (Ok tt, w')
    ∧ ledger w'
      = Some (Spec.ledger_base (Sample.tagger true true "detailed") Sample.fresh
              ++ List.map Row
                   (List.map (Spec.outcome_row Sample.env
                                (Sample.tagger true true "detailed"))
                      [Sample.a_jpg])
              ++ Row ["b.PNG"; "ERROR"; "0"; "unknown"; ".png"; "2024-01-01 00:00:00"]
                 :: List.map Row
                      (List.map (Spec.outcome_row Sample.env
                                   (Sample.tagger true true "detailed"))
                         [Sample.clip_mp4; Sample.sub_a_jpg]))
    ∧ Spec.captioned (log w')
      = Spec.captioned (log Sample.fresh)
        ++ [Sample.a_jpg] ++ Sample.b_png :: [Sample.clip_mp4; Sample.sub_a_jpg].
Proof.
  apply (failure_recorded_and_batch_continues Sample.env
           (Sample.tagger true true "detailed") ["in"] Sample.fresh
           [Sample.a_jpg] Sample.b_png [Sample.clip_mp4; Sample.sub_a_jpg]
           (OSError "cannot identify image file")).
  - vm_compute. reflexivity.
  - reflexivity.
Defined.

Lemma get_existing_files_never_raises_witness :
  Tagger._get_existing_files Sample.damaged_ledger
  = (Ok (Spec.first_column [["a.jpg"; "a cat"]]), Sample.damaged_ledger).
Proof.
  destruct (get_existing_files_never_raises Sample.damaged_ledger)
    as (_ & _ & _ & Hpartial).
  apply (Hpartial ["filename"; "caption"] [["a.jpg"; "a cat"]] [Row ["b.PNG"; "ERROR"]]).
  reflexivity.
Defined.

(** ** The model on small inputs *)

Example frame_indices_3_5 : Processors.frame_indices 5 3 = Ok [0; 1; 2].
Proof. reflexivity. Qed.

Example frame_indices_100_5 : Processors.frame_indices 5 100 = Ok [0; 20; 40; 60; 80].
Proof. reflexivity. Qed.

Example frame_indices_9_5 : Processors.frame_indices 5 9 = Ok [0; 1; 2; 3; 4].
Proof. reflexivity. Qed.

Example frame_indices_1_0 : Processors.frame_indices 0 1 = Raise ZeroDivisionError.
Proof. reflexivity. Qed.

Example suffix_examples :
  List.map PyPath.suffix [["d"; "a.JPG"]; [".bashrc"]; ["x."]; ["a.tar.gz"]; ["noext"]; []]
  = [".JPG"; ""; ""; ".gz"; ""; ""].
Proof. reflexivity. Qed.

Example strip_example : PyStr.strip "  a cat on a mat  " = "a cat on a mat".
Proof. reflexivity. Qed.

Example lower_example : PyStr.lower "Holiday.JPG" = "holiday.jpg".
Proof. reflexivity. Qed.

Example get_files_example :
  Tagger._get_files Sample.env ["in"]
  = [Sample.a_jpg; Sample.b_png; Sample.clip_mp4; Sample.sub_a_jpg].
Proof. vm_compute. reflexivity. Qed.

Example resumed_run_example :
  ledger (Tagger.process Sample.env (Sample.tagger true true "basic") ["in"]
            Sample.basic_ledger).2
  = Some [Row ["filename"; "caption"]; Row ["a.jpg"; "a cat"]; Row ["b.PNG"; "ERROR"];
          Row ["clip.mp4"; "a dog | a dog | a dog | a dog | a dog"]].
Proof. vm_compute. reflexivity. Qed.

(** * Further properties of the code *)

(** ** Video and image processors *)

Section ProcessorBehaviour.

Context {Image Inputs Tokens : Type}.
Implicit Types (blip : Captioner.Blip Image Inputs Tokens).
Implicit Types (video : Processors.VideoCapture Image).

Lemma omap_length_le {A B} (f : A → option B) (l : list A) :
  (length (omap f l) ≤ length l)%nat.
Proof.
  induction l as [|x l IH]; cbn; [done|].
  destruct (f x); cbn; lia.
Qed.

Lemma omap_none {A B} (f : A → option B) (l : list A) :
  (∀ x, f x = None) → omap f l = [].
Proof.
  intros Hf. induction l as [|x l IH]; cbn; [done|]. by rewrite Hf.
Qed.

Lemma frame_indices_ok (N total_frames : Z) :
  1 ≤ N →
  ∃ indices, Processors.frame_indices N total_frames = Ok indices
             ∧ Z.of_nat (length indices) ≤ N
             ∧ Z.of_nat (length indices) ≤ Z.max 0 total_frames.
Proof.
  intros HN. unfold Processors.frame_indices.
  destruct (Z.leb_spec total_frames N) as [Hle|Hgt].
  - eexists. split; [done|]. unfold Processors.range.
    rewrite length_map, length_seq. lia.
  - unfold Processors.floordiv. destruct (Z.eqb_spec N 0) as [->|_]; [lia|]. cbn.
    eexists. split; [done|]. unfold Processors.range.
    rewrite !length_map, length_seq. lia.
Qed.

Lemma extract_frames_ok N video :
  Processors.isOpened video = true →
  1 ≤ N →
  ∃ frames, Processors._extract_frames N video = Ok frames
            ∧ Z.of_nat (length frames) ≤ N
            ∧ Z.of_nat (length frames) ≤ Z.max 0 (Processors.frame_count video).
Proof.
  intros Hopen HN. unfold Processors._extract_frames. rewrite Hopen. cbn.
  destruct (Z.eqb_spec (Processors.frame_count video) 0) as [Hz|Hnz].
  - exists []. cbn. split; [done|]. lia.
  - destruct (frame_indices_ok N (Processors.frame_count video) HN)
      as (indices & -> & HleN & Hletotal). cbn.
    eexists. split; [done|].
    pose proof (omap_length_le (Processors.read_at video) indices). lia.
Qed.

(** X1: from a video that opens, with max_frames at least 1,
    [_extract_frames] returns normally with at most max_frames frames and
    never more frames than the video reports. *)
Theorem extract_frames_bounded N video :
  Processors.isOpened video = true →
  1 ≤ N →
  ∃ frames, Processors._extract_frames N video = Ok frames
            ∧ Z.of_nat (length frames) ≤ N
            ∧ Z.of_nat (length frames) ≤ Z.max 0 (Processors.frame_count video).
Proof. apply extract_frames_ok. Qed.

Lemma caption_all_ok blip frames :
  ∃ captions, Processors.caption_all blip frames = Ok captions
              ∧ Forall2 (fun frame caption => Captioner.caption blip frame = Ok caption)
                        frames captions.
Proof.
  induction frames as [|frame frames (captions & IH & Hall)]; cbn.
  - exists []. split; [done|constructor].
  - destruct (caption_total blip frame) as [caption Hc]. rewrite Hc, IH. cbn.
    exists (caption :: captions). split; [done|]. by constructor.
Qed.

Lemma video_process_ok blip N video :
  Processors.isOpened video = true →
  1 ≤ N →
  ∃ frames captions,
    Processors._extract_frames N video = Ok frames
    ∧ Forall2 (fun frame caption => Captioner.caption blip frame = Ok caption)
              frames captions
    ∧ Processors.video_process blip N video
      = Ok (match frames with
            | [] => "No frames extracted from video"
            | _ => PyStr.join " | " captions
            end).
Proof.
  intros Hopen HN.
  destruct (extract_frames_ok N video Hopen HN) as (frames & Hframes & _).
  destruct (caption_all_ok blip frames) as (captions & Hcaptions & Hall).
  exists frames, captions. split; [done|]. split; [done|].
  unfold Processors.video_process. rewrite Hframes. cbn.
  destruct frames as [|frame frames]; [done|]. by rewrite Hcaptions.
Qed.

(** X2: for a video that opens, with max_frames at least 1,
    [VideoProcessor.process] returns normally: the "no frames" string when no
    frame could be read, and otherwise the captions of the frames read, one
    per frame, joined by " | ". *)
Theorem video_process_opened blip N video :
  Processors.isOpened video = true →
  1 ≤ N →
  ∃ frames captions,
    Processors._extract_frames N video = Ok frames
    ∧ Forall2 (fun frame caption => Captioner.caption blip frame = Ok caption)
              frames captions
    ∧ Processors.video_process blip N video
      = Ok (match frames with
            | [] => "No frames extracted from video"
            | _ => PyStr.join " | " captions
            end).
Proof. apply video_process_ok. Qed.

(** X3: with max_frames at least 1, [VideoProcessor.process] raises exactly
    when the file cannot be opened, and what it raises is the ValueError of
    [_extract_frames]. *)
Theorem video_process_raises_iff blip N video e :
  1 ≤ N →
  Processors.video_process blip N video = Raise e
  ↔ Processors.isOpened video = false
    ∧ e = ValueError "Could not open video file".
Proof.
  intros HN. destruct (Processors.isOpened video) eqn:Hopen.
  - destruct (video_process_ok blip N video Hopen HN) as (fs & cs & _ & _ & ->).
    split; [done|]. by intros [? _].
  - unfold Processors.video_process, Processors._extract_frames. rewrite Hopen. cbn.
    split; [by intros [= <-]|by intros [_ ->]].
Qed.

(** X4: when a video opens but none of its frames can be read, the result
    is the "no frames" string, whatever frame count it reports. *)
Theorem unreadable_frames_result blip N video :
  Processors.isOpened video = true →
  1 ≤ N →
  (∀ i, Processors.read_at video i = None) →
  Processors.video_process blip N video = Ok "No frames extracted from video".
Proof.
  intros Hopen HN Hread.
  unfold Processors.video_process, Processors._extract_frames. rewrite Hopen. cbn.
  destruct (Z.eqb_spec (Processors.frame_count video) 0) as [Hz|Hnz]; [done|].
  destruct (frame_indices_ok N (Processors.frame_count video) HN) as (indices & -> & _).
  cbn. by rewrite omap_none.
Qed.

(** X5: [ImageProcessor.process] raises exactly when the image cannot be
    opened or, for an image that is not RGB, when its conversion fails, and
    it passes that exception on unchanged; a failure of the model never
    makes it raise. *)
Theorem image_process_raises_iff blip (opened : result (Processors.ImageFile Image)) e :
  Processors.image_process blip opened = Raise e
  ↔ opened = Raise e
    ∨ ∃ img, opened = Ok img
             ∧ Processors.mode img ≠ "RGB"
             ∧ Processors.convert_rgb img = Raise e.
Proof.
  unfold Processors.image_process. destruct opened as [img|e0]; cbn.
  - destruct (String.eqb_spec (Processors.mode img) "RGB") as [Hmode|Hmode]; cbn.
    + destruct (caption_total blip (Processors.pixels img)) as [s ->]. cbn.
      split; [done|]. intros [[=]|(img' & [= <-] & Hne & _)]. done.
    + destruct (Processors.convert_rgb img) as [rgb|e1] eqn:Hconv; cbn.
      * destruct (caption_total blip rgb) as [s ->]. cbn.
        split; [done|]. intros [[=]|(img' & [= <-] & _ & Hraise)]. congruence.
      * split.
        -- intros [= <-]. right. by exists img.
        -- intros [[=]|(img' & [= <-] & _ & Hraise)]. congruence.
  - split.
    + intros [= <-]. by left.
    + intros [[= <-]|(img & [=] & _)]. done.
Qed.

End ProcessorBehaviour.

Lemma extract_frames_bounded_witness :
  ∃ frames, Processors._extract_frames 5 (Sample.movie 100) = Ok frames
            ∧ Z.of_nat (length frames) ≤ 5
            ∧ Z.of_nat (length frames) ≤ Z.max 0 (Processors.frame_count (Sample.movie 100)).
Proof. apply (extract_frames_bounded 5 (Sample.movie 100)); [reflexivity|lia]. Defined.

Lemma video_process_opened_witness :
  ∃ frames captions,
    Processors._extract_frames 5 (Sample.movie 3) = Ok frames
    ∧ Forall2 (fun frame caption => Captioner.caption Sample.broken_blip frame = Ok caption)
              frames captions
    ∧ Processors.video_process Sample.broken_blip 5 (Sample.movie 3)
      = Ok (match frames with
            | [] => "No frames extracted from video"
            | _ => PyStr.join " | " captions
            end).
Proof.
  apply (video_process_opened Sample.broken_blip 5 (Sample.movie 3)); [reflexivity|lia].
Defined.

Lemma video_process_raises_iff_witness :
  Processors.video_process Sample.blip 5 Cases.closed_movie
  = Raise (ValueError "Could not open video file")
  ↔ Processors.isOpened Cases.closed_movie = false
    ∧ ValueError "Could not open video file" = ValueError "Could not open video file".
Proof. apply (video_process_raises_iff Sample.blip 5 Cases.closed_movie). lia. Defined.

Lemma unreadable_frames_result_witness :
  Processors.video_process Sample.blip 5 Cases.blank_movie
  = Ok "No frames extracted from video".
Proof.
  apply (unreadable_frames_result Sample.blip 5 Cases.blank_movie);
    [reflexivity|lia|reflexivity].
Defined.

Lemma image_process_raises_iff_witness :
  Processors.image_process Sample.blip (Ok Cases.palette_picture)
  = Raise (OSError "image file is truncated").
Proof.
  apply (image_process_raises_iff Sample.blip (Ok Cases.palette_picture)).
  right. exists Cases.palette_picture. split; [reflexivity|]. split; [discriminate|reflexivity].
Defined.

(** ** Frame sampling, continued *)

Lemma seq_strongly_sorted (a k : nat) : StronglySorted lt (List.seq a k).
Proof.
  revert a. induction k as [|k IH]; intros a; cbn; constructor; [apply IH|].
  apply list.Forall_forall. intros j Hj. apply elem_of_seq in Hj. lia.
Qed.

(** X6: when the video has more frames than max_frames (at least 1), the
    sampled indices start at frame 0, increase strictly, and all lie before
    the last frame, which is therefore never sampled. *)
Theorem sampling_starts_at_zero_and_skips_last (N total_frames : Z) :
  1 ≤ N →
  N < total_frames →
  ∃ indices,
    Processors.frame_indices N total_frames = Ok indices
    ∧ head indices = Some 0
    ∧ StronglySorted Z.lt indices
    ∧ ∀ x, x ∈ indices → x < total_frames - 1.
Proof.
  intros HN Hgt. unfold Processors.frame_indices, Processors.floordiv.
  destruct (Z.leb_spec total_frames N) as [Hle|_]; [lia|].
  destruct (Z.eqb_spec N 0) as [->|_]; [lia|]. cbn.
  assert (Hstep : 0 < total_frames / N) by (apply Z.div_str_pos; lia).
  assert (Hmul : N * (total_frames / N) ≤ total_frames) by (apply Z.mul_div_le; lia).
  eexists. split; [done|]. split; [|split].
  - unfold Processors.range. destruct (Z.to_nat N) as [|k] eqn:Hk; [lia|]. done.
  - unfold Processors.range.
    apply (StronglySorted_fmap _ Z.lt Z.lt); [intros x y Hxy; nia|].
    apply (StronglySorted_fmap _ lt Z.lt); [intros x y Hxy; lia|].
    apply seq_strongly_sorted.
  - intros x Hx. apply list_elem_of_fmap in Hx as (i & -> & Hi).
    apply list_elem_of_lookup in Hi as [k Hk].
    apply range_lookup in Hk as [-> Hlt].
    destruct (decide (total_frames / N = 1)) as [Hone|Hmore]; nia.
Qed.

Lemma sampling_starts_at_zero_and_skips_last_witness :
  ∃ indices,
    Processors.frame_indices 5 9 = Ok indices
    ∧ head indices = Some 0
    ∧ StronglySorted Z.lt indices
    ∧ ∀ x, x ∈ indices → x < 9 - 1.
Proof. apply (sampling_starts_at_zero_and_skips_last 5 9); lia. Defined.

(** ** Extensions and letter case *)

Section LetterCase.

Lemma dot_lower_ascii (a : ascii) :
  Ascii.eqb (PyStr.lower_ascii a) "."%char = Ascii.eqb a "."%char.
Proof. by destruct a as [[] [] [] [] [] [] [] []]. Qed.

Lemma rfind_lower (s : string) :
  PyStr.rfind "."%char (PyStr.lower s) = PyStr.rfind "."%char s.
Proof.
  induction s as [|a s IH]; cbn; [done|].
  rewrite IH. destruct (PyStr.rfind "." s); [done|]. by rewrite dot_lower_ascii.
Qed.

Lemma length_lower (s : string) : String.length (PyStr.lower s) = String.length s.
Proof. induction s as [|a s IH]; cbn; [done|]. by rewrite IH. Qed.

Lemma drop_lower (i : nat) (s : string) :
  PyStr.drop i (PyStr.lower s) = PyStr.lower (PyStr.drop i s).
Proof.
  revert s. induction i as [|i IH]; intros [|a s]; cbn; done.
Qed.

(** The lower-cased suffix of a path, from its lower-cased name. *)
Lemma lower_suffix (p : Path) :
  PyStr.lower (PyPath.suffix p) = PyPath.suffix [PyStr.lower (PyPath.name p)].
Proof.
  unfold PyPath.suffix. cbn [PyPath.name List.last].
  rewrite rfind_lower, length_lower.
  destruct (PyStr.rfind "." (PyPath.name p)) as [i|]; [|done].
  destruct ((0 <? i)%nat && (S i <? String.length (PyPath.name p))%nat); [|done].
  by rewrite drop_lower.
Qed.

(** X7: whether a file is supported depends only on its name up to letter
    case: two paths whose names differ at most in the case of their letters,
    in whatever directories, are both supported or both unsupported. *)
Theorem is_supported_ignores_case (p q : Path) :
  PyStr.lower (PyPath.name p) = PyStr.lower (PyPath.name q) →
  Tagger._is_supported p = Tagger._is_supported q.
Proof.
  intros Hname. unfold Tagger._is_supported. cbn zeta.
  by rewrite !lower_suffix, Hname.
Qed.

End LetterCase.

Lemma is_supported_ignores_case_witness :
  Tagger._is_supported ["in"; "Holiday.JPG"] = Tagger._is_supported ["out"; "x"; "holiday.jpg"].
Proof. apply (is_supported_ignores_case ["in"; "Holiday.JPG"] ["out"; "x"; "holiday.jpg"]). reflexivity. Defined.

(** ** The orchestrator, continued *)

Section RunBehaviour.

Context {Image Inputs Tokens : Type}.
Variable env : Tagger.Env Image Inputs Tokens.
Variable self : Tagger.AITagger.

Abbreviation width :=
  (if String.eqb (Tagger.format_type self) "detailed" then 6%nat else 2%nat).

Lemma header_length : length (Tagger.header self) = width.
Proof.
  unfold Tagger.header. by destruct (String.eqb (Tagger.format_type self) "detailed").
Qed.

Lemma outcome_row_length file : length (Spec.outcome_row env self file) = width.
Proof.
  unfold Spec.outcome_row, Spec.outcome, Tagger.success_result, Tagger.error_result,
    Tagger.detailed, Tagger.writerow.
  rewrite length_map.
  destruct (Tagger._process_single_file env file);
    by destruct (String.eqb (Tagger.format_type self) "detailed").
Qed.

Lemma outcome_row_head file :
  head (Spec.outcome_row env self file) = Some (PyPath.name file).
Proof.
  unfold Spec.outcome_row, Spec.outcome, Tagger.success_result, Tagger.error_result,
    Tagger.detailed.
  destruct (Tagger._process_single_file env file);
    by destruct (String.eqb (Tagger.format_type self) "detailed").
Qed.

Lemma rows_uniform files :
  Forall (fun record => ∃ fields, record = Row fields ∧ length fields = width)
         (List.map Row (List.map (Spec.outcome_row env self) files)).
Proof.
  induction files as [|f files IH]; cbn; constructor; [|done].
  eexists. split; [done|]. apply outcome_row_length.
Qed.

Lemma header_uniform :
  Forall (fun record => ∃ fields, record = Row fields ∧ length fields = width)
         [Row (Tagger.header self)].
Proof. constructor; [|constructor]. eexists. split; [done|]. apply header_length. Qed.

Lemma with_header_uniform w :
  Ledger.uniform width (ledger w) →
  Forall (fun record => ∃ fields, record = Row fields ∧ length fields = width)
         (Spec.with_header self w).
Proof.
  intros Hu. unfold Spec.with_header.
  destruct (ledger w) as [items|]; [by apply Hu|apply header_uniform].
Qed.

(** X8: a run keeps the ledger rectangular. If every record of the ledger
    is a row of as many fields as the header of the chosen format (2 for
    basic, 6 for detailed), or there is no ledger yet, the same holds after
    [process], and after a run killed at any point; the header, the rows of
    captioned files and the "ERROR" rows all have that many fields. *)
Theorem run_keeps_rows_rectangular input_path w n :
  Ledger.uniform width (ledger w) →
  (∃ w', Tagger.process env self input_path w = (Ok tt, w')
         ∧ Ledger.uniform width (ledger w'))
  ∧ (∃ w', Tagger.process_killed env self n input_path w = (Ok tt, w')
           ∧ Ledger.uniform width (ledger w')).
Proof.
  intros Hu. destruct (Tagger.continuous_save self) eqn:Hc.
  - rewrite process_continuous, process_killed_continuous by done.
    split; eexists; (split; [done|]); intros items [= <-];
      apply Forall_app; split; auto using with_header_uniform, rows_uniform.
  - split.
    + destruct (decide (Spec.to_process env self input_path w = [])) as [He|Hne].
      * rewrite process_buffered_nothing by done. by eexists.
      * rewrite process_buffered by done. eexists. split; [done|].
        destruct (Spec.is_resuming self w); intros items [= <-].
        -- apply Forall_app. split; [|apply rows_uniform].
           destruct (ledger w) as [old|] eqn:Hl; [by apply Hu|constructor].
        -- apply (Forall_app _ [_]). split; [apply header_uniform|apply rows_uniform].
    + unfold Tagger.process_killed, bind. rewrite prepare_spec, started_buffered by done.
      destruct (Spec.to_process env self input_path w) as [|f files]; [by eexists|].
      rewrite for_files_buffered by done. cbn. by eexists.
Qed.

(** X9: in incremental mode, and in buffered mode when the run is resuming,
    [process] only adds to the ledger: whatever the file held before, readable
    or not, is still there, in front of what the run wrote. *)
Theorem ledger_only_grows input_path w old :
  Tagger.continuous_save self = true ∨ Spec.is_resuming self w = true →
  ledger w = Some old →
  ∃ w' added, Tagger.process env self input_path w = (Ok tt, w')
              ∧ ledger w' = Some (old ++ added).
Proof.
  intros Hmode Hold. destruct (Tagger.continuous_save self) eqn:Hc.
  - rewrite process_continuous by done. eexists _, _. split; [done|]. cbn.
    unfold Spec.with_header. by rewrite Hold.
  - destruct Hmode as [?|Hres]; [done|].
    destruct (decide (Spec.to_process env self input_path w = [])) as [He|Hne].
    + rewrite process_buffered_nothing by done. exists w, [].
      by rewrite (right_id_L [] (++)).
    + rewrite process_buffered, Hres by done. eexists _, _. split; [done|]. cbn.
      by rewrite Hold.
Qed.

(** X10: with skip-existing disabled every discovered file is processed, in
    the order of discovery, whatever the ledger already holds. *)
Theorem no_skip_processes_everything input_path w :
  Tagger.skip_existing self = false →
  ∃ w', Tagger.process env self input_path w = (Ok tt, w')
        ∧ Spec.captioned (log w')
          = Spec.captioned (log w) ++ Tagger._get_files env input_path.
Proof.
  intros Hs. destruct (process_captioned env self input_path w) as (w' & Hrun & Hcap).
  exists w'. split; [done|]. rewrite Hcap. f_equal.
  unfold Spec.to_process, Spec.is_resuming, Tagger.resuming. by rewrite Hs.
Qed.

(** X11: when no supported file is found, [process] returns without
    processing anything; the ledger is left as it was, except that incremental
    mode has created it with its header if it did not exist. *)
Theorem nothing_found input_path w :
  Tagger._get_files env input_path = [] →
  ∃ w', Tagger.process env self input_path w = (Ok tt, w')
        ∧ ledger w' = (if Tagger.continuous_save self
                       then Some (match ledger w with
                                  | None => [Row (Tagger.header self)]
                                  | Some records => records
                                  end)
                       else ledger w)
        ∧ Spec.captioned (log w') = Spec.captioned (log w).
Proof.
  intros Hfiles.
  assert (Hnone : Spec.to_process env self input_path w = []).
  { unfold Spec.to_process. rewrite Hfiles. by destruct (Spec.is_resuming self w). }
  destruct (process_captioned env self input_path w) as (w' & Hrun & Hcap).
  exists w'. split; [done|]. rewrite Hcap, Hnone, (right_id_L [] (++)).
  split; [|done]. destruct (Tagger.continuous_save self) eqn:Hc.
  - rewrite process_continuous, Hnone in Hrun by done. injection Hrun as <-. cbn.
    by rewrite (right_id_L [] (++)).
  - rewrite process_buffered_nothing in Hrun by done. by injection Hrun as <-.
Qed.

Lemma get_files_supported input_path file :
  file ∈ Tagger._get_files env input_path → Tagger._is_supported file = true.
Proof.
  unfold Tagger._get_files. destruct (Tagger.is_file env input_path).
  - destruct (Tagger._is_supported input_path) eqn:Hs; [|by intros ?%elem_of_nil].
    by intros ->%list_elem_of_singleton.
  - rewrite merge_sort_Permutation, list_elem_of_In, List.filter_In, andb_true_iff.
    tauto.
Qed.

(** X12: a discovered file is always handed to one of the two processors,
    the image processor when its lower-cased extension is an image extension
    and the video processor otherwise (".gif" goes to the video processor);
    the "Unsupported file type" error is never raised for it. *)
Theorem discovered_file_is_dispatched input_path file :
  file ∈ Tagger._get_files env input_path →
  Tagger._process_single_file env file
  = (if bool_decide (PyStr.lower (PyPath.suffix file)
                     ∈ [".jpg"; ".jpeg"; ".png"; ".bmp"; ".tiff"; ".webp"])
     then Processors.image_process (Tagger.blip env) (Tagger.image_open env file)
     else Processors.video_process (Tagger.blip env) 5 (Tagger.video_capture env file)).
Proof.
  intros Hin. apply get_files_supported in Hin.
  unfold Tagger._is_supported in Hin. unfold Tagger._process_single_file. cbn zeta in *.
  assert (Himg : PyStr.lower (PyPath.suffix file) ∈ Tagger.SUPPORTED_IMAGES
                 ↔ PyStr.lower (PyPath.suffix file)
                   ∈ [".jpg"; ".jpeg"; ".png"; ".bmp"; ".tiff"; ".webp"]).
  { unfold Tagger.SUPPORTED_IMAGES.
    rewrite !elem_of_union, !elem_of_singleton, !elem_of_cons, elem_of_nil. tauto. }
  rewrite (bool_decide_ext _ _ Himg) in Hin |- *.
  destruct (bool_decide (PyStr.lower (PyPath.suffix file)
                         ∈ [".jpg"; ".jpeg"; ".png"; ".bmp"; ".tiff"; ".webp"]));
    [done|].
  cbn in Hin. by rewrite Hin.
Qed.

End RunBehaviour.

Section MainBehaviour.

Context {Image Inputs Tokens : Type}.
Variable env : Tagger.Env Image Inputs Tokens.

(** X13: [main] exits with status 1, without creating or changing the
    ledger, when the input path does not exist; for an existing path it runs
    [process] with skipping and incremental saving on unless switched off,
    and ends normally whatever happens to the single files. *)
Theorem main_exit_status (args : Main.Namespace) w :
  (Tagger.tree env !! Main.input_path args = None →
   Main.main env args w = (Ok (Main.Exit 1), w))
  ∧ (is_Some (Tagger.tree env !! Main.input_path args) →
     ∃ w', Main.main env args w = (Ok Main.Done, w')
           ∧ Tagger.process env
               {| Tagger.verbose := Main.verbose args;
                  Tagger.batch_mode := Main.batch args;
                  Tagger.skip_existing := negb (Main.no_skip args);
                  Tagger.continuous_save := negb (Main.no_continuous args);
                  Tagger.format_type := Main.format args |}
               (Main.input_path args) w = (Ok tt, w')).
Proof.
  unfold Main.main, Main.path_exists. split.
  - intros Hnone. rewrite bool_decide_eq_false_2; [done|]. rewrite Hnone. by intros [? [=]].
  - intros Hsome. rewrite bool_decide_eq_true_2 by done. cbn.
    match goal with |- context [Tagger.process env ?t ?p w] =>
      destruct (process_captioned env t p w) as (w' & Hrun & _) end.
    exists w'. unfold bind. by rewrite Hrun.
Qed.

End MainBehaviour.

Lemma run_keeps_rows_rectangular_witness :
  (∃ w', Tagger.process Sample.env (Sample.tagger true true "basic") ["in"]
           Sample.basic_ledger = (Ok tt, w')
         ∧ Ledger.uniform 2 (ledger w'))
  ∧ (∃ w', Tagger.process_killed Sample.env (Sample.tagger true true "basic") 1 ["in"]
             Sample.basic_ledger = (Ok tt, w')
           ∧ Ledger.uniform 2 (ledger w')).
Proof.
  apply (run_keeps_rows_rectangular Sample.env (Sample.tagger true true "basic")
           ["in"] Sample.basic_ledger 1).
  intros items [= <-]. repeat constructor; eexists; (split; [reflexivity|reflexivity]).
Defined.

Lemma ledger_only_grows_witness :
  ∃ w' added,
    Tagger.process Sample.env (Sample.tagger true true "basic") ["in"]
      Sample.damaged_ledger = (Ok tt, w')
    ∧ ledger w' = Some ([Row ["filename"; "caption"]; Row ["a.jpg"; "a cat"]; Corrupt;
                         Row ["b.PNG"; "ERROR"]] ++ added).
Proof.
  apply (ledger_only_grows Sample.env (Sample.tagger true true "basic") ["in"]
           Sample.damaged_ledger); [left; reflexivity|reflexivity].
Defined.

Lemma no_skip_processes_everything_witness :
  ∃ w', Tagger.process Sample.env (Sample.tagger false true "basic") ["in"]
          Sample.basic_ledger = (Ok tt, w')
        ∧ Spec.captioned (log w')
          = Spec.captioned (log Sample.basic_ledger) ++ Tagger._get_files Sample.env ["in"].
Proof.
  apply (no_skip_processes_everything Sample.env (Sample.tagger false true "basic")
           ["in"] Sample.basic_ledger).
  reflexivity.
Defined.

Lemma nothing_found_witness :
  ∃ w', Tagger.process Sample.env (Sample.tagger true true "detailed")
          ["in"; "notes.txt"] Sample.fresh = (Ok tt, w')
        ∧ ledger w' = Some [Row ["filename"; "caption"; "size_kb"; "dimensions";
                                 "file_type"; "date_processed"]]
        ∧ Spec.captioned (log w') = Spec.captioned (log Sample.fresh).
Proof.
  apply (nothing_found Sample.env (Sample.tagger true true "detailed")
           ["in"; "notes.txt"] Sample.fresh).
  vm_compute. reflexivity.
Defined.

Lemma discovered_file_is_dispatched_witness :
  Tagger._process_single_file Sample.env ["in"; "clip.mp4"]
  = Processors.video_process (Tagger.blip Sample.env) 5
      (Tagger.video_capture Sample.env ["in"; "clip.mp4"]).
Proof.
  apply (discovered_file_is_dispatched Sample.env ["in"] ["in"; "clip.mp4"]).
  vm_compute. set_solver.
Defined.

Lemma main_exit_status_witness :
  Main.main Sample.env Cases.missing_args Sample.basic_ledger
  = (Ok (Main.Exit 1), Sample.basic_ledger).
Proof.
  destruct (main_exit_status Sample.env Cases.missing_args Sample.basic_ledger)
    as [Hmissing _].
  apply Hmissing. vm_compute. reflexivity.
Defined.

(** ** Resuming, continued *)

Section ResumeBehaviour.

Context {Image Inputs Tokens : Type}.
Implicit Types (env : Tagger.Env Image Inputs Tokens) (self : Tagger.AITagger).

Abbreviation names files := (list_to_set (C := gset string) (List.map PyPath.name files)).

Lemma first_column_app rows1 rows2 :
  Spec.first_column (rows1 ++ rows2) = Spec.first_column rows1 ∪ Spec.first_column rows2.
Proof. unfold Spec.first_column. by rewrite omap_app, list_to_set_app_L. Qed.

Lemma omap_cons_some {A B} (f : A → option B) x y l :
  f x = Some y → omap f (x :: l) = y :: omap f l.
Proof. intros H. cbn. by rewrite H. Qed.

Lemma first_column_rows env self files :
  Spec.first_column (List.map (Spec.outcome_row env self) files) = names files.
Proof.
  unfold Spec.first_column. induction files as [|f files IH]; [done|].
  cbn [List.map]. rewrite (omap_cons_some _ _ _ _ (outcome_row_head env self f)).
  cbn [list_to_set foldr]. by rewrite IH.
Qed.

Lemma get_files_tree env1 env2 input_path :
  Tagger.tree env2 = Tagger.tree env1 →
  Tagger._get_files env2 input_path = Tagger._get_files env1 input_path.
Proof.
  intros Htree. unfold Tagger._get_files, Tagger.is_file, Tagger.rglob.
  by rewrite Htree.
Qed.

Lemma not_existing_union E N files :
  Tagger.not_existing (E ∪ N) files = Tagger.not_existing N (Tagger.not_existing E files).
Proof.
  unfold Tagger.not_existing. induction files as [|f files IH]; cbn; [done|].
  rewrite IH. destruct (decide (PyPath.name f ∈ E)) as [HE|HE].
  - rewrite (bool_decide_eq_false_2 (PyPath.name f ∉ E ∪ N)),
      (bool_decide_eq_false_2 (PyPath.name f ∉ E)); [done|tauto|].
    rewrite elem_of_union. tauto.
  - rewrite (bool_decide_eq_true_2 (PyPath.name f ∉ E)) by done. cbn.
    apply (f_equal (fun b : bool => if b then _ else _)).
    apply bool_decide_ext. rewrite elem_of_union. tauto.
Qed.

Lemma not_existing_all S files :
  (∀ f, f ∈ files → PyPath.name f ∈ S) → Tagger.not_existing S files = [].
Proof.
  unfold Tagger.not_existing. induction files as [|f files IH]; intros Hall; cbn; [done|].
  rewrite bool_decide_eq_false_2.
  - apply IH. intros g Hg. apply Hall. by right.
  - intros Hn. apply Hn, Hall. by left.
Qed.

Lemma not_existing_none S files :
  (∀ f, f ∈ files → PyPath.name f ∉ S) → Tagger.not_existing S files = files.
Proof.
  unfold Tagger.not_existing. induction files as [|f files IH]; intros Hall; cbn; [done|].
  rewrite bool_decide_eq_true_2 by (apply Hall; by left).
  f_equal. apply IH. intros g Hg. apply Hall. by right.
Qed.

Lemma not_existing_ext S1 S2 files :
  (∀ f, f ∈ files → (PyPath.name f ∈ S1 ↔ PyPath.name f ∈ S2)) →
  Tagger.not_existing S1 files = Tagger.not_existing S2 files.
Proof.
  unfold Tagger.not_existing. induction files as [|f files IH]; intros Hall; cbn; [done|].
  rewrite IH by (intros g Hg; apply Hall; by right).
  apply (f_equal (fun b : bool => if b then _ else _)).
  apply bool_decide_ext. pose proof (Hall f ltac:(by left)). tauto.
Qed.

Lemma not_existing_take n files :
  NoDup (List.map PyPath.name files) →
  Tagger.not_existing (names (take n files)) files = drop n files.
Proof.
  revert n. induction files as [|f files IH]; intros n Hnd; [by destruct n|].
  apply NoDup_cons in Hnd as [Hf Hnd].
  destruct n as [|n]; cbn [take drop List.map].
  - apply not_existing_none. intros g _. cbn. apply not_elem_of_empty.
  - rewrite <- (IH n Hnd). unfold Tagger.not_existing at 1. cbn [List.filter].
    rewrite bool_decide_eq_false_2.
    + apply not_existing_ext. intros g Hg. cbn.
      rewrite elem_of_union, elem_of_singleton. split; [|tauto].
      intros [Heq|?]; [|done]. destruct Hf. rewrite <- Heq.
      apply list_elem_of_fmap. by exists g.
    + intros Hn. apply Hn. cbn. apply elem_of_union_l. by apply elem_of_singleton.
Qed.

Lemma resume_set_with_header self w rows :
  Ledger.intact (ledger w) →
  Spec.resume_set (Some (Spec.with_header self w ++ List.map Row rows))
  = Spec.resume_set (ledger w) ∪ Spec.first_column rows.
Proof.
  unfold Spec.with_header, Spec.resume_set, Spec.data_rows.
  intros [->|(h & rows0 & ->)]; cbn [app Spec.readable tail].
  - rewrite readable_all. unfold Spec.first_column at 2. cbn.
    by rewrite (left_id_L ∅ (∪)).
  - by rewrite <- List.map_app, !readable_all, first_column_app.
Qed.

Lemma with_header_intact self w rows :
  Ledger.intact (ledger w) →
  Ledger.intact (Some (Spec.with_header self w ++ List.map Row rows)).
Proof.
  unfold Spec.with_header. intros [->|(h & rows0 & ->)]; right.
  - by exists (Tagger.header self), rows.
  - exists h, (rows0 ++ rows). by rewrite List.map_app.
Qed.

Lemma resuming_ledger self w :
  Spec.is_resuming self w = true → is_Some (ledger w).
Proof.
  unfold Spec.is_resuming, Tagger.resuming, Spec.existing_at.
  destruct (ledger w); [done|]. by destruct (Tagger.skip_existing self).
Qed.

Lemma not_resuming_empty self w :
  Tagger.skip_existing self = true →
  Spec.is_resuming self w = false →
  Spec.resume_set (ledger w) = ∅.
Proof.
  unfold Spec.is_resuming, Tagger.resuming, Spec.existing_at. intros ->. cbn.
  by intros ?%negb_false_iff%bool_decide_eq_true.
Qed.

Lemma process_resume_set env self input_path w :
  Tagger.skip_existing self = true →
  Ledger.intact (ledger w) →
  ∃ w', Tagger.process env self input_path w = (Ok tt, w')
        ∧ Spec.resume_set (ledger w')
          = Spec.resume_set (ledger w) ∪ names (Spec.to_process env self input_path w)
        ∧ Ledger.intact (ledger w').
Proof.
  intros Hs Hint. destruct (Tagger.continuous_save self) eqn:Hc.
  - rewrite process_continuous by done. eexists. split; [done|]. cbn [ledger].
    rewrite resume_set_with_header, first_column_rows by done.
    split; [done|]. by apply with_header_intact.
  - destruct (decide (Spec.to_process env self input_path w = [])) as [He|Hne].
    + rewrite process_buffered_nothing, He by done. exists w. split; [done|].
      split; [|done]. cbn. by rewrite (right_id_L ∅ (∪)).
    + rewrite process_buffered by done. cbv zeta. eexists. split; [done|].
      pose proof (resume_set_with_header self w
        (List.map (Spec.outcome_row env self) (Spec.to_process env self input_path w))
        Hint) as Hset.
      pose proof (with_header_intact self w
        (List.map (Spec.outcome_row env self) (Spec.to_process env self input_path w))
        Hint) as Hint'.
      destruct (Spec.is_resuming self w) eqn:Hres; cbn [ledger].
      * destruct (resuming_ledger self w Hres) as [old Hold].
        unfold Spec.with_header in Hset, Hint'. rewrite Hold in Hset, Hint'.
        rewrite Hold. change (default [] (Some old)) with old.
        by rewrite Hset, first_column_rows.
      * rewrite (not_resuming_empty self w Hs Hres), (left_id_L ∅ (∪)).
        split.
        -- unfold Spec.resume_set, Spec.data_rows. cbn [List.map Spec.readable tail].
           by rewrite readable_all, first_column_rows.
        -- right. by eexists _, _.
Qed.

(** X14: with skip-existing enabled and a ledger that is absent or readable
    to its end, the resume set after [process] is the resume set before it
    together with the names of the files the run had to process, and the
    ledger is again readable to its end. *)
Theorem resume_set_after_run env self input_path w :
  Tagger.skip_existing self = true →
  Ledger.intact (ledger w) →
  ∃ w', Tagger.process env self input_path w = (Ok tt, w')
        ∧ Spec.resume_set (ledger w')
          = Spec.resume_set (ledger w) ∪ names (Spec.to_process env self input_path w)
        ∧ Ledger.intact (ledger w').
Proof. apply process_resume_set. Qed.

Lemma nothing_left_is_a_no_op env self input_path w :
  Spec.to_process env self input_path w = [] →
  Tagger.continuous_save self = false ∨ is_Some (ledger w) →
  Tagger.process env self input_path w = (Ok tt, w).
Proof.
  intros He Hmode. destruct (Tagger.continuous_save self) eqn:Hc.
  - destruct Hmode as [?|[old Hold]]; [done|].
    rewrite process_continuous, He by done. cbn.
    unfold Spec.with_header, Spec.started. rewrite Hc, Hold, !(right_id_L [] (++)).
    destruct w. cbn in *. by subst.
  - by apply process_buffered_nothing.
Qed.

Lemma to_process_after env2 self input_path w' E files :
  Tagger.skip_existing self = true →
  Tagger.not_existing E (Tagger._get_files env2 input_path) = files →
  Spec.resume_set (ledger w') = E ∪ names files →
  Spec.to_process env2 self input_path w' = [].
Proof.
  intros Hs Hfiles Hset.
  rewrite to_process_skipping, Hset, not_existing_union, Hfiles by done.
  apply not_existing_all. intros f Hf.
  apply elem_of_list_to_set, list_elem_of_fmap. by exists f.
Qed.

(** X15: with skip-existing enabled and a ledger that is absent or readable
    to its end, running [process] again over the same input tree after a
    completed run processes nothing and leaves the ledger exactly as the first
    run left it, in either save mode. *)
Theorem rerun_does_nothing env1 env2 self input_path w :
  Tagger.tree env2 = Tagger.tree env1 →
  Tagger.skip_existing self = true →
  Ledger.intact (ledger w) →
  ∃ w1, Tagger.process env1 self input_path w = (Ok tt, w1)
        ∧ Tagger.process env2 self input_path w1 = (Ok tt, w1).
Proof.
  intros Htree Hs Hint.
  destruct (process_resume_set env1 self input_path w Hs Hint)
    as (w1 & Hrun & Hset & _).
  exists w1. split; [done|]. apply nothing_left_is_a_no_op.
  - apply (to_process_after env2 self input_path w1 (Spec.resume_set (ledger w))
             (Spec.to_process env1 self input_path w)); [done| |done].
    by rewrite (get_files_tree env1 env2), <- (to_process_skipping env1 self input_path w).
  - destruct (Tagger.continuous_save self) eqn:Hc; [right|by left].
    rewrite process_continuous in Hrun by done. by injection Hrun as <-.
Qed.

(** X16: in incremental mode with skip-existing enabled, over a ledger that
    is absent or readable to its end and files with pairwise different names,
    a run killed after any number of files and then run again completes the
    ledger: its rows are those of the first files from the first run followed
    by those of the remaining files from the second, one row per file in the
    order of discovery; with the same outcomes per file this is the ledger of
    an uninterrupted run. *)
Theorem interrupted_then_resumed env1 env2 self input_path w n :
  Tagger.tree env2 = Tagger.tree env1 →
  Tagger.continuous_save self = true →
  Tagger.skip_existing self = true →
  Ledger.intact (ledger w) →
  NoDup (List.map PyPath.name (Spec.to_process env1 self input_path w)) →
  let files := Spec.to_process env1 self input_path w in
  ∃ w1 w2,
    Tagger.process_killed env1 self n input_path w = (Ok tt, w1)
    ∧ Tagger.process env2 self input_path w1 = (Ok tt, w2)
    ∧ ledger w2
      = Some (Spec.with_header self w
              ++ List.map Row (List.map (Spec.outcome_row env1 self) (take n files))
              ++ List.map Row (List.map (Spec.outcome_row env2 self) (drop n files)))
    ∧ (env2 = env1 →
       ∃ w', Tagger.process env1 self input_path w = (Ok tt, w')
             ∧ ledger w2 = ledger w').
Proof.
  intros Htree Hc Hs Hint Hnd files.
  rewrite process_killed_continuous by done. eexists _, _. split; [done|].
  rewrite process_continuous by done.
  match goal with |- context [Spec.to_process env2 self input_path ?w1] =>
    assert (Hleft : Spec.to_process env2 self input_path w1 = drop n files) end.
  { rewrite to_process_skipping by done. cbn [ledger].
    rewrite resume_set_with_header, first_column_rows, not_existing_union by done.
    rewrite (get_files_tree env1 env2),
      <- (to_process_skipping env1 self input_path w) by done.
    by apply not_existing_take. }
  rewrite Hleft. split; [done|]. cbn [ledger Spec.with_header].
  split; [by rewrite <- (assoc_L (++))|].
  intros ->. rewrite process_continuous by done. eexists. split; [done|]. cbn.
  rewrite <- (assoc_L (++)), <- !List.map_app. fold files. by rewrite take_drop.
Qed.

(** X17: in incremental mode over a ledger with an unreadable record, the
    rows a run appends stay invisible to resuming: the resume set after the
    run is the one before it, so the next run has the same files to process
    again. *)
Theorem damage_hides_appended_rows env self input_path w header rows rest :
  Tagger.continuous_save self = true →
  ledger w = Some (Row header :: List.map Row rows ++ Corrupt :: rest) →
  ∃ w', Tagger.process env self input_path w = (Ok tt, w')
        ∧ Spec.resume_set (ledger w') = Spec.resume_set (ledger w)
        ∧ Spec.to_process env self input_path w' = Spec.to_process env self input_path w.
Proof.
  intros Hc Hledger. rewrite process_continuous by done. eexists. split; [done|].
  assert (Hset : ∀ added,
    Spec.resume_set (Some ((Row header :: List.map Row rows ++ Corrupt :: rest) ++ added))
    = Spec.resume_set (Some (Row header :: List.map Row rows ++ Corrupt :: rest))).
  { intros added. unfold Spec.resume_set, Spec.data_rows. cbn.
    by rewrite <- (assoc_L (++)), <- app_comm_cons, !readable_rows. }
  unfold Spec.to_process, Spec.is_resuming, Spec.existing_at. cbn [ledger].
  unfold Spec.with_header. rewrite !Hledger, !Hset. done.
Qed.

(** X18: the save mode changes when rows are written, not what the ledger
    ends up holding: for two configurations that differ only in
    continuous_save, with at least one file to process and a ledger that is
    absent or being resumed, the incremental and the buffered run leave the
    same ledger. *)
Theorem save_modes_agree env incremental buffered input_path w :
  Tagger.continuous_save incremental = true →
  Tagger.continuous_save buffered = false →
  Tagger.skip_existing incremental = Tagger.skip_existing buffered →
  Tagger.format_type incremental = Tagger.format_type buffered →
  Spec.to_process env buffered input_path w ≠ [] →
  ledger w = None ∨ Spec.is_resuming buffered w = true →
  ∃ w1 w2, Tagger.process env incremental input_path w = (Ok tt, w1)
           ∧ Tagger.process env buffered input_path w = (Ok tt, w2)
           ∧ ledger w1 = ledger w2.
Proof.
  intros Hc Hb Hskip Hformat Hne Hstart.
  rewrite process_continuous, process_buffered by done.
  eexists _, _. split; [done|]. split; [done|].
  assert (Hfiles : Spec.to_process env incremental input_path w
                   = Spec.to_process env buffered input_path w).
  { unfold Spec.to_process, Spec.is_resuming, Tagger.resuming, Spec.existing_at.
    by rewrite Hskip. }
  assert (Hrows : ∀ f, Spec.outcome_row env incremental f = Spec.outcome_row env buffered f).
  { intros f. unfold Spec.outcome_row, Spec.outcome, Tagger.success_result,
      Tagger.error_result, Tagger.detailed. by rewrite Hformat. }
  assert (Hheader : Tagger.header incremental = Tagger.header buffered).
  { unfold Tagger.header. by rewrite Hformat. }
  rewrite Hfiles, (List.map_ext _ _ Hrows). unfold Spec.with_header. rewrite Hheader.
  destruct Hstart as [Hnone|Hres].
  - rewrite Hnone. destruct (Spec.is_resuming buffered w) eqn:Hres; [|done].
    apply resuming_ledger in Hres as [? Hsome]. congruence.
  - rewrite Hres. destruct (resuming_ledger buffered w Hres) as [old ->]. done.
Qed.

End ResumeBehaviour.

(** ** Writing and reading the ledger *)

Section LedgerRoundTrip.

Context {Image Inputs Tokens : Type}.
Variable env : Tagger.Env Image Inputs Tokens.
Variable self : Tagger.AITagger.

(** X19: what [_write_csv] writes, [_get_existing_files] reads back: after
    writing a list of results, whatever the file held before, the set of
    existing files is the set of first fields of those results; the header
    row is not part of it. *)
Theorem written_results_are_found results w :
  ∃ w', (Tagger._write_csv env self results ;; Tagger._get_existing_files) w
        = (Ok (Spec.first_column (List.map (Tagger.writerow env) results)), w')
        ∧ ledger w'
          = Some (List.map Row (Tagger.header self :: List.map (Tagger.writerow env) results)).
Proof.
  unfold bind, Tagger._write_csv, Tagger.open_w. rewrite get_existing_files_spec.
  eexists. split; [apply (f_equal2 pair); [f_equal|reflexivity]|done].
  unfold Spec.resume_set, Spec.data_rows. cbn [ledger List.map Spec.readable tail].
  by rewrite readable_all.
Qed.

(** X20: a result saved by [_save_single_result] to a ledger that is
    readable to its end and has a first row is found by
    [_get_existing_files]: the set of existing files grows by the first field
    of the saved row. *)
Theorem saved_result_is_found result w header rows :
  ledger w = Some (Row header :: List.map Row rows) →
  ∃ w', (Tagger._save_single_result env result ;; Tagger._get_existing_files) w
        = (Ok (Spec.resume_set (ledger w)
               ∪ Spec.first_column [Tagger.writerow env result]), w')
        ∧ ledger w' = Some (Row header :: List.map Row (rows ++ [Tagger.writerow env result])).
Proof.
  intros Hledger.
  unfold bind, Tagger._save_single_result, Tagger.open_a.
  rewrite get_existing_files_spec. cbn [ledger]. rewrite Hledger.
  change (default [] (Some ?l)) with l.
  eexists. split; [apply (f_equal2 pair); [f_equal|reflexivity]|by rewrite List.map_app].
  unfold Spec.resume_set, Spec.data_rows.
  cbn [ledger List.map Spec.readable tail app].
  change [Row (Tagger.writerow env result)]
    with (List.map Row [Tagger.writerow env result]).
  rewrite <- List.map_app, !readable_all. apply first_column_app.
Qed.

(** X21: an output file that exists but is empty gets no header in
    incremental mode: the ledger after the run consists of the result rows
    alone, the first of them stands where the header would, and the resume
    set holds the names of all processed files but the first. *)
Theorem empty_file_gets_no_header input_path w file rest :
  Tagger.continuous_save self = true →
  ledger w = Some [] →
  Spec.to_process env self input_path w = file :: rest →
  ∃ w', Tagger.process env self input_path w = (Ok tt, w')
        ∧ ledger w' = Some (List.map Row
                              (List.map (Spec.outcome_row env self) (file :: rest)))
        ∧ Spec.resume_set (ledger w') = list_to_set (List.map PyPath.name rest).
Proof.
  intros Hc Hledger Hfiles. rewrite process_continuous by done.
  eexists. split; [done|]. cbn [ledger]. unfold Spec.with_header.
  rewrite Hledger, Hfiles. cbn [app]. split; [done|].
  unfold Spec.resume_set, Spec.data_rows. cbn [List.map Spec.readable tail].
  by rewrite readable_all, first_column_rows.
Qed.

End LedgerRoundTrip.

(** ** The further properties on concrete runs *)

Lemma resume_set_after_run_witness :
  ∃ w', Tagger.process Sample.env (Sample.tagger true true "basic") ["in"]
          Sample.basic_ledger = (Ok tt, w')
        ∧ Spec.resume_set (ledger w')
          = Spec.resume_set (ledger Sample.basic_ledger)
            ∪ list_to_set
                (List.map PyPath.name
                   (Spec.to_process Sample.env (Sample.tagger true true "basic")
                      ["in"] Sample.basic_ledger))
        ∧ Ledger.intact (ledger w').
Proof.
  apply (resume_set_after_run Sample.env (Sample.tagger true true "basic") ["in"]
           Sample.basic_ledger).
  - reflexivity.
  - right. exists ["filename"; "caption"], [["a.jpg"; "a cat"]]. reflexivity.
Defined.

Lemma rerun_does_nothing_witness :
  ∃ w1, Tagger.process Sample.env (Sample.tagger true false "detailed") ["in"]
          Sample.fresh = (Ok tt, w1)
        ∧ Tagger.process Cases.later_env (Sample.tagger true false "detailed") ["in"] w1
          = (Ok tt, w1).
Proof.
  apply (rerun_does_nothing Sample.env Cases.later_env
           (Sample.tagger true false "detailed") ["in"] Sample.fresh).
  - reflexivity.
  - reflexivity.
  - left. reflexivity.
Defined.

Lemma interrupted_then_resumed_witness :
  let files := Spec.to_process Sample.abc_env (Sample.tagger true true "basic") ["d"]
                 Sample.fresh in
  ∃ w1 w2,
    Tagger.process_killed Sample.abc_env (Sample.tagger true true "basic") 1 ["d"]
      Sample.fresh = (Ok tt, w1)
    ∧ Tagger.process Sample.abc_env (Sample.tagger true true "basic") ["d"] w1
      = (Ok tt, w2)
    ∧ ledger w2
      = Some (Spec.with_header (Sample.tagger true true "basic") Sample.fresh
              ++ List.map Row
                   (List.map (Spec.outcome_row Sample.abc_env
                                (Sample.tagger true true "basic")) (take 1 files))
              ++ List.map Row
                   (List.map (Spec.outcome_row Sample.abc_env
                                (Sample.tagger true true "basic")) (drop 1 files)))
    ∧ (Sample.abc_env = Sample.abc_env →
       ∃ w', Tagger.process Sample.abc_env (Sample.tagger true true "basic") ["d"]
               Sample.fresh = (Ok tt, w')
             ∧ ledger w2 = ledger w').
Proof.
  apply (interrupted_then_resumed Sample.abc_env Sample.abc_env
           (Sample.tagger true true "basic") ["d"] Sample.fresh 1).
  - reflexivity.
  - reflexivity.
  - reflexivity.
  - left. reflexivity.
  - refine (bool_decide_unpack _ _). vm_compute. exact I.
Defined.

Lemma damage_hides_appended_rows_witness :
  ∃ w', Tagger.process Sample.env (Sample.tagger true true "basic") ["in"]
          Sample.damaged_ledger = (Ok tt, w')
        ∧ Spec.resume_set (ledger w') = Spec.resume_set (ledger Sample.damaged_ledger)
        ∧ Spec.to_process Sample.env (Sample.tagger true true "basic") ["in"] w'
          = Spec.to_process Sample.env (Sample.tagger true true "basic") ["in"]
              Sample.damaged_ledger.
Proof.
  apply (damage_hides_appended_rows Sample.env (Sample.tagger true true "basic") ["in"]
           Sample.damaged_ledger ["filename"; "caption"] [["a.jpg"; "a cat"]]
           [Row ["b.PNG"; "ERROR"]]).
  - reflexivity.
  - reflexivity.
Defined.

Lemma save_modes_agree_witness :
  ∃ w1 w2,
    Tagger.process Sample.env (Sample.tagger true true "detailed") ["in"] Sample.fresh
    = (Ok tt, w1)
    ∧ Tagger.process Sample.env (Sample.tagger true false "detailed") ["in"] Sample.fresh
      = (Ok tt, w2)
    ∧ ledger w1 = ledger w2.
Proof.
  apply (save_modes_agree Sample.env (Sample.tagger true true "detailed")
           (Sample.tagger true false "detailed") ["in"] Sample.fresh).
  - reflexivity.
  - reflexivity.
  - reflexivity.
  - reflexivity.
  - vm_compute. discriminate.
  - left. reflexivity.
Defined.

Lemma saved_result_is_found_witness :
  ∃ w', (Tagger._save_single_result Sample.env [Str "b.PNG"; Str "ERROR"]
         ;; Tagger._get_existing_files) Sample.basic_ledger
        = (Ok (Spec.resume_set (ledger Sample.basic_ledger)
               ∪ Spec.first_column [Tagger.writerow Sample.env [Str "b.PNG"; Str "ERROR"]]),
           w')
        ∧ ledger w'
          = Some (Row ["filename"; "caption"]
                  :: List.map Row ([["a.jpg"; "a cat"]]
                                   ++ [Tagger.writerow Sample.env [Str "b.PNG"; Str "ERROR"]])).
Proof.
  apply (saved_result_is_found Sample.env [Str "b.PNG"; Str "ERROR"] Sample.basic_ledger
           ["filename"; "caption"] [["a.jpg"; "a cat"]]).
  reflexivity.
Defined.

Lemma empty_file_gets_no_header_witness :
  ∃ w', Tagger.process Sample.abc_env (Sample.tagger true true "basic") ["d"]
          Cases.empty_file = (Ok tt, w')
        ∧ ledger w'
          = Some (List.map Row
                    (List.map (Spec.outcome_row Sample.abc_env
                                 (Sample.tagger true true "basic"))
                       (["d"; "a.jpg"] :: [["d"; "b.png"]; ["d"; "c.gif"]])))
        ∧ Spec.resume_set (ledger w')
          = list_to_set (List.map PyPath.name [["d"; "b.png"]; ["d"; "c.gif"]]).
Proof.
  apply (empty_file_gets_no_header Sample.abc_env (Sample.tagger true true "basic")
           ["d"] Cases.empty_file ["d"; "a.jpg"] [["d"; "b.png"]; ["d"; "c.gif"]]).
  - reflexivity.
  - reflexivity.
  - vm_compute. reflexivity.
Defined.
